(** * SMU-Calendar: a shallow embedding of [src/main.py]

    The program crawls the academic calendar of one university endpoint,
    year by year, turns every record into an all-day calendar event and
    writes one calendar document.

    The embedding follows the source function by function.  Python values
    are modelled by the types the source annotates: [str] is [string] (the
    bytes of its UTF-8 encoding), [int] is [Z], a [dict] parsed from JSON
    is a [gmap string json], a [set] is a hash container driven by the
    element's [__hash__] and [__eq__].  A Python call either returns or
    raises: such code lives in [Result]; code that also logs or writes
    lives in [Run].

    What the program reaches outside of itself is kept apart:
    - the network, the clock, the file system and the order in which the
      interpreter iterates a set are the fields of [World];
    - [html.parser.HTMLParser] is the class [HTMLParser], known by two
      paths of its [goahead];
    - the [ics] package is not part of the program: an [ics.Event] and an
      [ics.Calendar] are known by the calls the source makes on them, and
      nothing is said of the text the package writes for them. *)

From stdpp Require Import gmap strings list pretty sorting.
From Stdlib Require Import ZArith Lia Ascii.

Set Warnings "-register-all".
#[local] Open Scope string_scope.
#[local] Open Scope list_scope.
#[local] Open Scope Z_scope.

(** ** Python runtime: exceptions and results *)

(** The exception classes the program can meet.  All of them derive from
    [Exception], which is what the [except Exception] clauses of
    [fetch_events] catch. *)
Inductive exn : Type :=
  | AssertionError
  | KeyError (key : string)
  | TypeError
  | ValueError
  | OverflowError
  | RequestException
  | OSError.

#[global] Instance exn_eq_dec : EqDecision exn.
Proof. solve_decision. Defined.

Inductive Result (A : Type) : Type :=
  | Ok (a : A)
  | Raise (e : exn).
Arguments Ok {A} a.
Arguments Raise {A} e.

#[global] Instance Result_ret : MRet Result := λ A a, Ok a.
#[global] Instance Result_bind : MBind Result :=
  λ A B f m, match m with Ok a => f a | Raise e => Raise e end.
#[global] Instance Result_fmap : FMap Result :=
  λ A B f m, match m with Ok a => Ok (f a) | Raise e => Raise e end.

Definition is_Ok {A} (r : Result A) : bool :=
  match r with Ok _ => true | Raise _ => false end.

(** [[f(x) for x in l]], stopping at the first exception. *)
Fixpoint mapR {A B} (f : A → Result B) (l : list A) : Result (list B) :=
  match l with
  | [] => Ok []
  | x :: l' => y ← f x; ys ← mapR f l'; Ok (y :: ys)
  end.

(** [ord(c)] *)
Definition code (c : ascii) : Z := Z.of_nat (nat_of_ascii c).

(** The decimal digits of an [int].  This is what [str(year)] and
    [f'{year}'] give for the years of the program, which have few digits. *)
Definition str (n : Z) : string := pretty n.

(** [str(n)] and [f'{n}'] for an [int] that the program did not make
    itself: the interpreter refuses to write out more than 4300 digits
    ([sys.set_int_max_str_digits], which the program leaves at its default)
    and raises a [ValueError]. *)
Definition INT_MAX_STR_DIGITS : Z := 4300.

Definition int_to_str (n : Z) : Result string :=
  if Z.of_nat (String.length (str (Z.abs n))) <=? INT_MAX_STR_DIGITS
  then Ok (str n)
  else Raise ValueError.

(** The double quote character, for string literals that contain one. *)
Definition dquote : string := String (ascii_of_nat 34) EmptyString.

(** ** Python runtime: [sorted] and [set] *)

Section PyContainers.
Context {A : Type}.

(** [sorted(l)] only ever calls [__lt__] and it is stable.  Every stable
    sort returns the same list, so insertion from the right stands for
    the interpreter's merge sort. *)
Variable lt : A → A → bool.

Fixpoint insort (x : A) (l : list A) : list A :=
  match l with
  | [] => [x]
  | y :: l' => if lt y x then y :: insort x l' else x :: y :: l'
  end.

Definition sorted (l : list A) : list A := foldr insort [] l.

(** A [set] looks an element up by its [__hash__] and then compares with
    [__eq__]; an element that is found is not stored again.  The list is
    the carrier of the set and no more: the interpreter iterates a set in
    the order of its hash table, which changes as the set grows.  The
    program meets that order in one place, [sorted(events)], where it is
    taken from the [World] ([iter_events]). *)
Variable hash : A → Z.
Variable eq : A → A → bool.

Definition set_contains (s : list A) (x : A) : bool :=
  existsb (λ y, (hash y =? hash x) && eq y x) s.

Definition set_add (s : list A) (x : A) : list A :=
  if set_contains s x then s else s ++ [x].

(** [set(iterable)] *)
Definition set_of (l : list A) : list A := fold_left set_add l [].

(** [s.update(other)] *)
Definition set_update (s other : list A) : list A := fold_left set_add other s.
End PyContainers.

(** ** JSON values, as [response.json()] returns them *)

(** Numbers are integers here: the fields the program reads are annotated
    [int] or [str], and a fractional number never takes part. *)
Inductive json : Type :=
  | JNull
  | JBool (b : bool)
  | JInt (z : Z)
  | JStr (s : string)
  | JList (l : list json)
  | JObj (o : gmap string json).

(** [j[key]]: only a [dict] can be subscripted with a string. *)
Definition getitem (j : json) (key : string) : Result json :=
  match j with
  | JObj o => match o !! key with
              | Some v => Ok v
              | None => Raise (KeyError key)
              end
  | _ => Raise TypeError
  end.

(** ** [datetime]: naive date-times, [strptime] and [timedelta] *)

Module datetime.

(** A naive [datetime.datetime]. *)
Record t : Type := mk {
  year : Z; month : Z; day : Z;
  hour : Z; minute : Z; second : Z; microsecond : Z
}.

#[global] Instance t_eq_dec : EqDecision t.
Proof. solve_decision. Defined.

Definition fields (d : t) : list Z :=
  [year d; month d; day d; hour d; minute d; second d; microsecond d].

(** Comparison of two tuples of integers, as Python compares tuples. *)
Fixpoint cmp_tuple (a b : list Z) : comparison :=
  match a, b with
  | [], [] => Eq
  | [], _ :: _ => Lt
  | _ :: _, [] => Gt
  | x :: a', y :: b' =>
      match x ?= y with
      | Eq => cmp_tuple a' b'
      | c => c
      end
  end.

(** [datetime._cmp] *)
Definition _cmp (a b : t) : comparison := cmp_tuple (fields a) (fields b).

(** [a < b], [a > b] and [a <= b] *)
Definition ltb (a b : t) : bool := bool_decide (_cmp a b = Lt).
Definition gtb (a b : t) : bool := bool_decide (_cmp a b = Gt).
Definition leb (a b : t) : bool := negb (gtb a b).

(** The builtin [max(a, b)]: the first argument stays unless the second
    one is strictly greater. *)
Definition max (a b : t) : t := if gtb b a then b else a.

Definition _MAXORDINAL : Z := 3652059.

Definition _is_leap (y : Z) : bool :=
  (y mod 4 =? 0) && (negb (y mod 100 =? 0) || (y mod 400 =? 0)).

Definition _days_before_year (y : Z) : Z :=
  let y := y - 1 in y * 365 + y / 4 - y / 100 + y / 400.

Definition _DAYS_IN_MONTH : list Z :=
  [-1; 31; 28; 31; 30; 31; 30; 31; 31; 30; 31; 30; 31].

Definition _DAYS_BEFORE_MONTH : list Z :=
  [-1; 0; 31; 59; 90; 120; 151; 181; 212; 243; 273; 304; 334].

Definition index (l : list Z) (i : Z) : Z := default 0 (l !! Z.to_nat i).

Definition _days_in_month (y m : Z) : Z :=
  if (m =? 2) && _is_leap y then 29 else index _DAYS_IN_MONTH m.

Definition _days_before_month (y m : Z) : Z :=
  index _DAYS_BEFORE_MONTH m + (if (2 <? m) && _is_leap y then 1 else 0).

Definition _ymd2ord (y m d : Z) : Z :=
  _days_before_year y + _days_before_month y m + d.

Definition _DI400Y : Z := 146097.
Definition _DI100Y : Z := 36524.
Definition _DI4Y : Z := 1461.

Definition _ord2ymd (n : Z) : Z * Z * Z :=
  let n := n - 1 in
  let n400 := n / _DI400Y in let n := n mod _DI400Y in
  let y := n400 * 400 + 1 in
  let n100 := n / _DI100Y in let n := n mod _DI100Y in
  let n4 := n / _DI4Y in let n := n mod _DI4Y in
  let n1 := n / 365 in let n := n mod 365 in
  let y := y + n100 * 100 + n4 * 4 + n1 in
  if (n1 =? 4) || (n100 =? 4) then (y - 1, 12, 31)
  else
    let leapyear := (n1 =? 3) && (negb (n4 =? 24) || (n100 =? 3)) in
    let m := Z.shiftr (n + 50) 5 in
    let preceding :=
      index _DAYS_BEFORE_MONTH m + (if (2 <? m) && leapyear then 1 else 0) in
    if n <? preceding then
      let m := m - 1 in
      let preceding :=
        preceding
        - (index _DAYS_IN_MONTH m + (if (m =? 2) && leapyear then 1 else 0)) in
      (y, m, n - preceding + 1)
    else (y, m, n - preceding + 1).

(** [datetime(y, m, d)]: the constructor checks the date fields. *)
Definition of_date (y m d : Z) : Result t :=
  if (1 <=? y) && (y <=? 9999) && (1 <=? m) && (m <=? 12)
     && (1 <=? d) && (d <=? _days_in_month y m)
  then Ok (mk y m d 0 0 0 0)
  else Raise ValueError.

(** *** [datetime.strptime(s, "%Y-%m-%d")]

    The format is turned into the regular expression
    [(\d\d\d\d)-(1[0-2]|0[1-9]|[1-9])-(3[01]|[12]\d|0[1-9]|[1-9]| [1-9])],
    matched at the start of [s].  Alternatives are tried from left to
    right; text left over after the match is an error, and so is a date
    that does not exist.  Every failure is a [ValueError].

    A range such as [[0-2]] holds ASCII digits.  [\d] matches one character
    that is a decimal digit of any script, and [int] reads such digits: the
    decimal digits of Unicode 14.0 come in 66 runs of ten, from zero to
    nine, and [ZERO_DIGITS] lists the zeros. *)

Definition ZERO_DIGITS : list Z :=
  [48; 1632; 1776; 1984; 2406; 2534; 2662; 2790; 2918; 3046; 3174; 3302;
   3430; 3558; 3664; 3792; 3872; 4160; 4240; 6112; 6160; 6470; 6608; 6784;
   6800; 6992; 7088; 7232; 7248; 42528; 43216; 43264; 43472; 43504; 43600;
   44016; 65296; 66720; 68912; 69734; 69872; 69942; 70096; 70384; 70736;
   70864; 71248; 71360; 71472; 71904; 72016; 72784; 73040; 73120; 92768;
   92864; 93008; 120782; 120792; 120802; 120812; 120822; 123200; 123632;
   125264; 130032].

(** The value of the decimal digit with code point [cp]. *)
Definition decimal (cp : Z) : option Z :=
  head (omap (λ zero, if (zero <=? cp) && (cp <=? zero + 9)
                      then Some (cp - zero) else None) ZERO_DIGITS).

(** A byte that continues a character, and its six bits. *)
Definition continues (c : ascii) : bool := (128 <=? code c) && (code c <=? 191).
Definition six (c : ascii) : Z := code c - 128.

(** The first character of a text: its code point and the text after it.
    A character takes one to four bytes; [None] at the end of the text
    (and for bytes that encode no character, which a [str] never holds). *)
Definition first_char (s : list ascii) : option (Z * list ascii) :=
  match s with
  | [] => None
  | c1 :: s1 =>
      if code c1 <? 128 then Some (code c1, s1)
      else
        match s1 with
        | c2 :: s2 =>
            if (code c1 <? 224) then
              let cp := (code c1 - 192) * 64 + six c2 in
              if continues c2 && (128 <=? cp) then Some (cp, s2) else None
            else
              match s2 with
              | c3 :: s3 =>
                  if (code c1 <? 240) then
                    let cp := ((code c1 - 224) * 64 + six c2) * 64 + six c3 in
                    if continues c2 && continues c3 && (2048 <=? cp)
                    then Some (cp, s3) else None
                  else
                    match s3 with
                    | c4 :: s4 =>
                        let cp :=
                          (((code c1 - 240) * 64 + six c2) * 64 + six c3) * 64
                          + six c4 in
                        if continues c2 && continues c3 && continues c4
                           && (65536 <=? cp) && (cp <=? 1114111)
                        then Some (cp, s4) else None
                    | [] => None
                    end
              | [] => None
              end
        | [] => None
        end
  end.

(** An ASCII digit. *)
Definition digit (c : ascii) : option Z :=
  if (48 <=? code c) && (code c <=? 57) then Some (code c - 48) else None.

Definition digit_in (lo hi : Z) (c : ascii) : option Z :=
  match digit c with
  | Some n => if (lo <=? n) && (n <=? hi) then Some n else None
  | None => None
  end.

Definition orelse {R} (a b : option R) : option R :=
  match a with Some _ => a | None => b end.

(** [\d] *)
Definition re_digit {R} (k : Z → list ascii → option R) (s : list ascii) : option R :=
  match first_char s with
  | Some (cp, s') => match decimal cp with Some d => k d s' | None => None end
  | None => None
  end.

(** [[lo-hi]] *)
Definition re_in {R} (lo hi : Z) (k : Z → list ascii → option R)
    (s : list ascii) : option R :=
  match s with
  | c :: s' => match digit_in lo hi c with Some d => k d s' | None => None end
  | [] => None
  end.

(** [(\d\d\d\d)] *)
Definition re_Y {R} (k : Z → list ascii → option R) (s : list ascii) : option R :=
  re_digit (λ d1, re_digit (λ d2, re_digit (λ d3, re_digit (λ d4,
    k (d1 * 1000 + d2 * 100 + d3 * 10 + d4))))) s.

(** Two characters: a digit in [[lo1,hi1]] then one in [[lo2,hi2]]. *)
Definition re_two {R} (lo1 hi1 lo2 hi2 : Z)
    (k : Z → list ascii → option R) (s : list ascii) : option R :=
  re_in lo1 hi1 (λ d1, re_in lo2 hi2 (λ d2, k (d1 * 10 + d2))) s.

(** [[12]\d] *)
Definition re_12d {R} (k : Z → list ascii → option R) (s : list ascii) : option R :=
  re_in 1 2 (λ d1, re_digit (λ d2, k (d1 * 10 + d2))) s.

(** One character: a digit in [[1,9]]. *)
Definition re_one {R} (k : Z → list ascii → option R) (s : list ascii) : option R :=
  re_in 1 9 k s.

(** A literal character. *)
Definition re_lit {R} (c : ascii) (k : list ascii → option R) (s : list ascii) : option R :=
  match s with
  | c' :: s' => if bool_decide (c' = c) then k s' else None
  | _ => None
  end.

(** [(1[0-2]|0[1-9]|[1-9])] *)
Definition re_m {R} (k : Z → list ascii → option R) (s : list ascii) : option R :=
  orelse (re_two 1 1 0 2 k s) (orelse (re_two 0 0 1 9 k s) (re_one k s)).

(** [(3[01]|[12]\d|0[1-9]|[1-9]| [1-9])] *)
Definition re_d {R} (k : Z → list ascii → option R) (s : list ascii) : option R :=
  orelse (re_two 3 3 0 1 k s)
    (orelse (re_12d k s)
       (orelse (re_two 0 0 1 9 k s)
          (orelse (re_one k s) (re_lit " "%char (re_one k) s)))).

(** The whole pattern; the match ends where the day ends. *)
Definition re_Ymd (s : list ascii) : option (Z * Z * Z * list ascii) :=
  re_Y (λ y, re_lit "-"%char (re_m (λ m, re_lit "-"%char
    (re_d (λ d rest, Some (y, m, d, rest)))))) s.

Definition strptime_Ymd (s : string) : Result t :=
  match re_Ymd (String.list_ascii_of_string s) with
  | None => Raise ValueError
  | Some (y, m, d, []) => of_date y m d
  | Some (_, _, _, _ :: _) => Raise ValueError
  end.

(** *** [timedelta] *)

Module timedelta.
Record t : Type := mk { days : Z; seconds : Z; microseconds : Z }.

(** [timedelta(days, seconds, microseconds)]: the three parts are
    normalised, and more than 999999999 days either way overflows. *)
Definition new (d s us : Z) : Result t :=
  let total := (d * 86400 + s) * 1000000 + us in
  let d' := total / 86400000000 in
  let r := total mod 86400000000 in
  if 999999999 <? Z.abs d' then Raise OverflowError
  else Ok (mk d' (r / 1000000) (r mod 1000000)).

(** [timedelta(milliseconds=ms)] *)
Definition of_milliseconds (ms : Z) : Result t := new 0 0 (ms * 1000).
End timedelta.

Definition toordinal (d : t) : Z := _ymd2ord (year d) (month d) (day d).

(** [datetime.__add__] with a [timedelta] *)
Definition add (d : t) (other : timedelta.t) : Result t :=
  delta ← timedelta.new
    (toordinal d + timedelta.days other)
    (hour d * 3600 + minute d * 60 + second d + timedelta.seconds other)
    (microsecond d + timedelta.microseconds other);
  let hh := timedelta.seconds delta / 3600 in
  let rem := timedelta.seconds delta mod 3600 in
  if (0 <? timedelta.days delta) && (timedelta.days delta <=? _MAXORDINAL) then
    let '(y, m, dd) := _ord2ymd (timedelta.days delta) in
    Ok (mk y m dd hh (rem / 60) (rem mod 60) (timedelta.microseconds delta))
  else Raise OverflowError.

End datetime.

(** ** [html.parser.HTMLParser]

    The parser is library code.  The program uses it through [feed] alone,
    with [convert_charrefs=True], and overrides [handle_data] alone; so a
    parser is taken to be the list of strings [feed] hands to [handle_data],
    one after the other, on a parser that was fed nothing before.

    One path of [HTMLParser.goahead(end=False)] is written out, the one
    taken by a buffer that holds no ['<'], for ASCII text:
<<
      j = rawdata.find('<', i)
      if j < 0:
          amppos = rawdata.rfind('&', max(i, n-34))
          if (amppos >= 0 and
              not re.compile(r'[\s;]').search(rawdata, amppos)):
              break  # wait till we get all the text
          j = n
      if i < j:
          self.handle_data(unescape(rawdata[i:j]))
>>
    [unescape] returns a text without ['&'] as it is.  Nothing is said
    ([None]) of a text that would go through [unescape] with an ['&'] in it,
    of a text with a ['<'] and of a text that is not ASCII.

    [feed] can raise.  A second path is written out, the one that ends in
    [parse_marked_section] of [_markupbase] (Python 3.11): the text before
    the first ['<'] is handed over, and at ["<!["] the parser scans a name,
    [[a-zA-Z][-_.a-zA-Z0-9]*\s*]:
<<
      sectName, j = self._scan_name( i+3, i )
      if j < 0:
          return j
      if sectName in {"temp", "cdata", "ignore", "include", "rcdata"}:
          ...
      elif sectName in {"if", "else", "endif"}:
          ...
      else:
          raise AssertionError(...)
>>
    [_scan_name] itself raises an [AssertionError] when no name starts
    there, and asks for more text when the name runs to the end of the
    buffer. *)

(** [\s] on ASCII characters *)
Definition is_space (c : ascii) : bool :=
  ((9 <=? code c) && (code c <=? 13)) || ((28 <=? code c) && (code c <=? 32)).

Definition is_char (c : ascii) (x : ascii) : bool := bool_decide (x = c).

(** The part of [l] that starts at the last [c], as [l[l.rfind(c):]]. *)
Fixpoint from_last (c : ascii) (l : list ascii) : option (list ascii) :=
  match l with
  | [] => None
  | x :: l' =>
      match from_last c l' with
      | Some r => Some r
      | None => if is_char c x then Some l else None
      end
  end.

Definition goahead_text (rawdata : string) : option (list string) :=
  let l := String.list_ascii_of_string rawdata in
  if existsb (is_char "<"%char) l || existsb (λ c, 128 <=? code c) l then None
  else
    match l with
    | [] => Some []
    | _ :: _ =>
        let waits :=
          match from_last "&"%char (drop (length l - 34)%nat l) with
          | Some tail => negb (existsb (λ c, is_space c || is_char ";"%char c) tail)
          | None => false
          end in
        if waits then Some []
        else if existsb (is_char "&"%char) l then None
        else Some [rawdata]
    end.

(** The part of [l] that starts at the first [c], as [l[l.find(c):]]. *)
Fixpoint from_first (c : ascii) (l : list ascii) : option (list ascii) :=
  match l with
  | [] => None
  | x :: l' => if is_char c x then Some l else from_first c l'
  end.

Fixpoint skip (p : ascii → bool) (l : list ascii) : list ascii :=
  match l with
  | [] => []
  | x :: l' => if p x then skip p l' else l
  end.

Fixpoint leading (p : ascii → bool) (l : list ascii) : list ascii :=
  match l with
  | [] => []
  | x :: l' => if p x then x :: leading p l' else []
  end.

Definition is_upper (c : ascii) : bool := (65 <=? code c) && (code c <=? 90).
Definition is_letter (c : ascii) : bool :=
  is_upper c || ((97 <=? code c) && (code c <=? 122)).
Definition is_name_char (c : ascii) : bool :=
  is_letter c || ((48 <=? code c) && (code c <=? 57))
  || is_char "-"%char c || is_char "_"%char c || is_char "."%char c.

(** [c.lower()] on ASCII characters *)
Definition lower (c : ascii) : ascii :=
  if is_upper c then ascii_of_nat (nat_of_ascii c + 32) else c.

Definition section_keywords : list (list ascii) :=
  String.list_ascii_of_string
    <$> ["temp"; "cdata"; "ignore"; "include"; "rcdata"; "if"; "else"; "endif"].

(** [_scan_name] and the test of the keyword, on the text after ["<!["]:
    whether an [AssertionError] is raised. *)
Definition scan_name_raises (l : list ascii) : bool :=
  match l with
  | [] => false
  | c :: _ =>
      if is_letter c then
        match skip is_space (skip is_name_char l) with
        | [] => false
        | _ :: _ =>
            negb (bool_decide ((lower <$> leading is_name_char l) ∈ section_keywords))
        end
      else true
  end.

(** Whether [feed] raises for an ASCII text whose first ['<'] opens a
    marked section. *)
Definition goahead_marked_section (rawdata : string) : bool :=
  let l := String.list_ascii_of_string rawdata in
  if existsb (λ c, 128 <=? code c) l then false
  else
    match from_first "<"%char l with
    | Some (_ :: c2 :: c3 :: rest) =>
        is_char "!"%char c2 && is_char "["%char c3 && scan_name_raises rest
    | _ => false
    end.

Class HTMLParser : Type := {
  feed : string → Result (list string);
  feed_text : ∀ rawdata chunks,
    goahead_text rawdata = Some chunks → feed rawdata = Ok chunks;
  feed_marked_section : ∀ rawdata,
    goahead_marked_section rawdata = true → feed rawdata = Raise AssertionError
}.

(** [class HTMLTagRemover(HTMLParser)] *)
Module HTMLTagRemover.
Record t : Type := mk { results : string }.

Definition __init__ : t := mk "".

Definition handle_data (self : t) (data : string) : t :=
  mk (results self +:+ data).
End HTMLTagRemover.

(** ** The [ics] package

    The package is not part of the program.  An [ics.Event] is the record
    of the keyword arguments [to_ics] passes, with the all-day flag
    [make_all_day] sets.  The comment in [to_ics] records that the
    constructor refuses an end that lies before the begin.  An
    [ics.Calendar] is known by its construction: its creator and the
    arguments of the calls of [events.add], in call order ([added]).  What
    the container behind [events] keeps of them, and the order and the
    text in which [serialize_iter] writes them, are the package's and are
    not modelled. *)

Module ics.
Record Event : Type := mkEvent {
  uid : string;
  name : string;
  description : string;
  begin : datetime.t;
  end_ : datetime.t;
  created : datetime.t;
  last_modified : datetime.t;
  url : string;
  all_day : bool
}.

Definition Event_new (uid name description : string)
    (begin end_ created last_modified : datetime.t) (url : string) : Result Event :=
  if datetime.ltb end_ begin then Raise ValueError
  else Ok (mkEvent uid name description begin end_ created last_modified url false).

Definition make_all_day (e : Event) : Event :=
  mkEvent (uid e) (name e) (description e) (begin e) (end_ e)
          (created e) (last_modified e) (url e) true.

Record Calendar : Type := mkCalendar {
  creator : string;
  added : list Event
}.

Definition Calendar_new (creator : string) : Calendar := mkCalendar creator [].

(** [icalendar.events.add(e)] *)
Definition events_add (c : Calendar) (e : Event) : Calendar :=
  mkCalendar (creator c) (added c ++ [e]).
End ics.

(** ** [class SmuCalendarEvent] *)

Record SmuCalendarEvent : Type := mkSmuCalendarEvent {
  boardNo : string;
  articleNo : Z;
  articleTitle : string;
  articleText : string;
  createDt : Z;
  orderDt : Z;
  updateDt : Z;
  etcChar4 : string;
  etcChar5 : string;
  etcChar6 : string;
  etcChar7 : string;
  etcChar8 : string;
  etcChar9 : string
}.

#[global] Instance SmuCalendarEvent_eq_dec : EqDecision SmuCalendarEvent.
Proof. solve_decision. Defined.

(** The tuple of fields the [@dataclass] decorator compares. *)
Definition astuple (e : SmuCalendarEvent) :
    string * Z * string * string * Z * Z * Z
    * string * string * string * string * string * string :=
  (boardNo e, articleNo e, articleTitle e, articleText e,
   createDt e, orderDt e, updateDt e,
   etcChar4 e, etcChar5 e, etcChar6 e, etcChar7 e, etcChar8 e, etcChar9 e).

(** [__eq__] is not written in the class: [@dataclasses.dataclass] generates
    it (its [eq] option is on by default), comparing the tuples of fields. *)
Definition __eq__ (self other : SmuCalendarEvent) : bool :=
  bool_decide (astuple self = astuple other).

(** [__hash__] is written in the class, and the decorator leaves a written
    [__hash__] in place. *)
Definition __hash__ (self : SmuCalendarEvent) : Z := articleNo self.

Definition __lt__ (self other : SmuCalendarEvent) : bool :=
  articleNo self <? articleNo other.

Definition _strptime (s : string) : Result datetime.t := datetime.strptime_Ymd s.

Definition _msptime (ms : Z) : Result datetime.t :=
  td ← datetime.timedelta.of_milliseconds ms;
  datetime.add (datetime.mk 1970 1 1 0 0 0 0) td.

(** An exception of [feed] leaves [_cleanhtml], and what [handle_data] had
    gathered is lost with the parser. *)
Definition _cleanhtml `{HTMLParser} (html : string) : Result string :=
  let remover := HTMLTagRemover.__init__ in
  chunks ← feed html;
  let remover := fold_left HTMLTagRemover.handle_data chunks remover in
  Ok (HTMLTagRemover.results remover).

(** The keyword arguments are evaluated from top to bottom, so the first of
    them that raises decides the exception. *)
Definition to_ics `{HTMLParser} (self : SmuCalendarEvent) : Result ics.Event :=
  uid ← int_to_str (articleNo self);
  let name := articleTitle self in
  description ← _cleanhtml (articleText self);
  begin ← _strptime (etcChar6 self);
  end_start ← _strptime (etcChar6 self);
  end_end ← _strptime (etcChar7 self);
  let end_ := datetime.max end_start end_end in
  created ← _msptime (createDt self);
  last_modified ← _msptime (updateDt self);
  url ← (articleNo ← int_to_str (articleNo self);
         Ok ("https://www.smu.ac.kr/kor/life/academicCalendar.do?mode=view&articleNo="
             +:+ articleNo +:+ "&boardNo=" +:+ boardNo self));
  event ← ics.Event_new uid name description begin end_ created last_modified url;
  Ok (ics.make_all_day event).

(** The sets of events of the program. *)
Definition EventSet : Type := list SmuCalendarEvent.
Definition events_of (l : list SmuCalendarEvent) : EventSet :=
  set_of __hash__ __eq__ l.
Definition events_update (s other : EventSet) : EventSet :=
  set_update __hash__ __eq__ s other.

(** ** The world outside the program *)

(** [requests.post(url=..., data=...)] *)
Record Request : Type := mkRequest {
  req_url : string;
  req_data : list (string * string)
}.

(** The keys of a record and the types the dataclass annotates them with. *)
Definition str_keys : list string :=
  ["boardNo"; "articleTitle"; "articleText"; "etcChar4"; "etcChar5";
   "etcChar6"; "etcChar7"; "etcChar8"; "etcChar9"].
Definition int_keys : list string :=
  ["articleNo"; "createDt"; "orderDt"; "updateDt"].

Definition is_JStr (j : json) : bool := match j with JStr _ => true | _ => false end.
Definition is_JInt (j : json) : bool := match j with JInt _ => true | _ => false end.

(** A key that is present holds a value of the annotated type. *)
Definition typed_keys (p : json → bool) (keys : list string) (o : gmap string json) : bool :=
  forallb (λ k, match o !! k with Some v => p v | None => true end) keys.

Definition typed_item (item : json) : bool :=
  match item with
  | JObj o => typed_keys is_JStr str_keys o && typed_keys is_JInt int_keys o
  | _ => true
  end.

Definition typed_response (j : json) : bool :=
  match j with
  | JObj o => match o !! "list" with
              | Some (JList items) => forallb typed_item items
              | _ => true
              end
  | _ => true
  end.

(** The clock, the network, the interpreter's sets and the file system.

    The dataclass stores what it is given without a check; the fields of
    [SmuCalendarEvent] have the annotated types here, so the endpoint is
    taken to answer with values of these types wherever a record has the
    key ([post_typed]).  Keys may be missing, elements need not be records,
    and the answer need not have a list at all.

    [iter_events] is the order in which the interpreter iterates a set of
    events: some order of its entries.

    [open(path, 'w')] creates or empties the file.  [writelines] stands for
    what follows in the [with] block, [icalendar.serialize_iter()],
    [f.writelines] and the closing of the file, each of which can raise
    once the file has been emptied. *)
Record World : Type := mkWorld {
  CURRENT_YEAR : Z;                          (* datetime.now().year *)
  post_json : Request → Result json;         (* requests.post(...).json() *)
  post_typed : ∀ r j, post_json r = Ok j → typed_response j = true;
  iter_events : EventSet → list SmuCalendarEvent;      (* iter(events) *)
  iter_events_order : ∀ events, iter_events events ≡ₚ events;
  os_path_exists : string → bool;
  os_makedirs : string → Result unit;
  open_write : string → Result unit;         (* open(path, 'w') *)
  writelines : string → Result unit
}.

Definition ICS_AUTHOR : string := "상명대학교<@smu.ac.kr>, 김동주<hepheir@gmail.com>".
Definition ICS_FILE_OUTPUT_PATH : string := "docs/calendar.ics".
(** [os.path.dirname(ICS_FILE_OUTPUT_PATH)] *)
Definition ICS_FILE_OUTPUT_DIR : string := "docs".

Definition TARGET_YEARS (w : World) : list Z :=
  [CURRENT_YEAR w - 1; CURRENT_YEAR w; CURRENT_YEAR w + 1].
Definition ADDITIONAL_TARGET_YEARS (w : World) : list Z :=
  [CURRENT_YEAR w - 3; CURRENT_YEAR w - 2; CURRENT_YEAR w + 2].

(** ** [class SmuCalendarCrawler] *)

(** [json.dumps({"year": str(year), "bachelorBoardNoList": ["85"]})] *)
Definition jsonStr (year : Z) : string :=
  "{" +:+ dquote +:+ "year" +:+ dquote +:+ ": " +:+ dquote +:+ str year +:+ dquote
  +:+ ", " +:+ dquote +:+ "bachelorBoardNoList" +:+ dquote +:+ ": ["
  +:+ dquote +:+ "85" +:+ dquote +:+ "]}".

Definition request_of (year : Z) : Request :=
  mkRequest "https://www.smu.ac.kr/app/common/selectDataList.do"
    [("sqlId", "jw.Article.selectCalendarArticle");
     ("modelNm", "list");
     ("jsonStr", jsonStr year)].

Definition _fetch (w : World) (year : Z) : Result json :=
  post_json w (request_of year).

(** [assert cond] *)
Definition assert (cond : bool) : Result unit :=
  if cond then Ok () else Raise AssertionError.

Definition is_True (j : json) : bool :=
  match j with JBool true => true | _ => false end.
Definition is_list (j : json) : bool :=
  match j with JList _ => true | _ => false end.

Definition _validate (j : json) : Result unit :=
  success ← getitem j "success";
  assert (is_True success);;
  l ← getitem j "list";
  assert (is_list l).

(** [for item in x]: what iterating a JSON value yields. *)
Definition iterate (j : json) : Result (list json) :=
  match j with
  | JList l => Ok l
  | JStr s => Ok ((λ c, JStr (String c EmptyString)) <$> String.list_ascii_of_string s)
  | JObj o => Ok (JStr <$> (map_to_list o).*1)
  | _ => Raise TypeError
  end.

(** [item[key]] at a field annotated [str], resp. [int].  The source stores
    [item[key]] as it is.  The fields of [SmuCalendarEvent] are typed here,
    so a value of another type is refused at this point; no answer of a
    [World] holds one ([post_typed]), and the exceptions of [get_events]
    are stated for such answers only. *)
Definition item_str (item : json) (key : string) : Result string :=
  v ← getitem item key;
  match v with JStr s => Ok s | _ => Raise TypeError end.
Definition item_int (item : json) (key : string) : Result Z :=
  v ← getitem item key;
  match v with JInt z => Ok z | _ => Raise TypeError end.

(** The body of the loop of [_deserialize]. *)
Definition deserialize_item (item : json) : Result SmuCalendarEvent :=
  boardNo ← item_str item "boardNo";
  articleNo ← item_int item "articleNo";
  articleTitle ← item_str item "articleTitle";
  articleText ← item_str item "articleText";
  createDt ← item_int item "createDt";
  orderDt ← item_int item "orderDt";
  updateDt ← item_int item "updateDt";
  etcChar4 ← item_str item "etcChar4";
  etcChar5 ← item_str item "etcChar5";
  etcChar6 ← item_str item "etcChar6";
  etcChar7 ← item_str item "etcChar7";
  etcChar8 ← item_str item "etcChar8";
  etcChar9 ← item_str item "etcChar9";
  Ok (mkSmuCalendarEvent boardNo articleNo articleTitle articleText
        createDt orderDt updateDt
        etcChar4 etcChar5 etcChar6 etcChar7 etcChar8 etcChar9).

(** The generator, run to its end: the events it yields, or the exception
    that stops it. *)
Definition _deserialize (j : json) : Result (list SmuCalendarEvent) :=
  l ← getitem j "list";
  items ← iterate l;
  mapR deserialize_item items.

Definition _get_events (w : World) (year : Z) : Result (list SmuCalendarEvent) :=
  raw_data ← _fetch w year;
  _validate raw_data;;
  _deserialize raw_data.

Definition get_events (w : World) (year : Z) : Result EventSet :=
  events_of <$> _get_events w year.

(** ** Logging, files and the orchestrator *)

Inductive Level : Type := DEBUG | INFO | WARNING | ERROR.

#[global] Instance Level_eq_dec : EqDecision Level.
Proof. solve_decision. Defined.

Record LogRecord : Type := mkLogRecord {
  levelname : Level;
  message : string
}.

(** What a file that the program opened holds: the whole document of a
    calendar, or, when writing it raised, some part of that document from
    its start, possibly nothing. *)
Inductive File : Type :=
  | Document (icalendar : ics.Calendar)
  | Partial (icalendar : ics.Calendar).

(** What a run leaves behind: the log and the files written. *)
Record State : Type := mkState {
  records : list LogRecord;
  files : gmap string File
}.

(** A step of the program: it returns or raises, and it may log or write. *)
Definition Run (A : Type) : Type := State → Result A * State.

#[global] Instance Run_ret : MRet Run := λ A a st, (Ok a, st).
#[global] Instance Run_bind : MBind Run :=
  λ A B f m st,
    match m st with
    | (Ok a, st') => f a st'
    | (Raise e, st') => (Raise e, st')
    end.

Definition lift {A} (r : Result A) : Run A := λ st, (r, st).

Definition log (lvl : Level) (msg : string) : Run unit :=
  λ st, (Ok (), mkState (records st ++ [mkLogRecord lvl msg]) (files st)).

(** [try: body / except Exception: handler / else: orelse] *)
Definition try_except_else {A B} (body : Run A) (handler : Run B)
    (orelse : A → Run B) : Run B :=
  λ st,
    match body st with
    | (Ok a, st') => orelse a st'
    | (Raise _, st') => handler st'
    end.

(** [for x in l: s = body(s, x)] *)
Fixpoint for_each {S X} (body : S → X → Run S) (l : list X) (s : S) : Run S :=
  match l with
  | [] => mret s
  | x :: l' => s' ← body s x; for_each body l' s'
  end.

(** The body of the first loop of [fetch_events]. *)
Definition crawl_target (w : World) (events : EventSet) (year : Z) : Run EventSet :=
  try_except_else
    (log INFO ("🌀 start crawling " +:+ str year +:+ " events.");;
     lift (events_update events <$> get_events w year))
    (log ERROR ("❌ failed to crawl " +:+ str year +:+ " events.");;
     mret events)
    (λ events',
     log INFO ("✅ crawled " +:+ str year +:+ " events successfully.");;
     mret events').

(** The body of the second loop of [fetch_events]. *)
Definition crawl_additional (w : World) (events : EventSet) (year : Z) : Run EventSet :=
  try_except_else
    (log INFO ("start crawling " +:+ str year +:+ " events. (additional)");;
     lift (events_update events <$> get_events w year))
    (log WARNING ("⚠️ failed to crawl " +:+ str year +:+ " events. (additional)");;
     mret events)
    (λ events',
     log INFO ("✅ crawled " +:+ str year +:+ " events successfully. (additional)");;
     mret events').

Definition fetch_events (w : World) : Run EventSet :=
  events ← for_each (crawl_target w) (TARGET_YEARS w) [];
  for_each (crawl_additional w) (ADDITIONAL_TARGET_YEARS w) events.

(** [with open(path, 'w') as f: f.writelines(icalendar.serialize_iter())] *)
Definition write_calendar (w : World) (path : string) (icalendar : ics.Calendar) : Run unit :=
  λ st,
    match open_write w path with
    | Ok _ =>
        match writelines w path with
        | Ok _ =>
            (Ok (), mkState (records st) (<[path := Document icalendar]> (files st)))
        | Raise e =>
            (Raise e, mkState (records st) (<[path := Partial icalendar]> (files st)))
        end
    | Raise e => (Raise e, st)
    end.

(** [icalendar.events.add(evt.to_ics())] *)
Definition add_event `{HTMLParser} (icalendar : ics.Calendar)
    (evt : SmuCalendarEvent) : Run ics.Calendar :=
  lift (ics.events_add icalendar <$> to_ics evt).

Definition main `{HTMLParser} (w : World) : Run unit :=
  let icalendar := ics.Calendar_new ICS_AUTHOR in
  events ← fetch_events w;
  icalendar ← for_each add_event (sorted __lt__ (iter_events w events)) icalendar;
  log INFO ("📋 writing events on " +:+ dquote +:+ ICS_FILE_OUTPUT_PATH
            +:+ dquote +:+ ".");;
  (if os_path_exists w ICS_FILE_OUTPUT_DIR then mret ()
   else lift (os_makedirs w ICS_FILE_OUTPUT_DIR));;
  write_calendar w ICS_FILE_OUTPUT_PATH icalendar.

(** The status the interpreter exits with: 0 when [main] returns, 1 when an
    exception leaves it. *)
Definition exit_status (r : Result unit) : Z :=
  match r with Ok _ => 0 | Raise _ => 1 end.

(** What [fetch_events] amounts to: the years whose crawl raised leave the
    set as it was. *)
Definition crawled (w : World) (events : EventSet) (year : Z) : EventSet :=
  match get_events w year with
  | Ok evs => events_update events evs
  | Raise _ => events
  end.

Definition aggregated (w : World) : EventSet :=
  fold_left (crawled w) (TARGET_YEARS w ++ ADDITIONAL_TARGET_YEARS w) [].

(** ** Vocabulary of the statements *)

(** Ascending article numbers. *)
Definition by_articleNo (a b : SmuCalendarEvent) : Prop := articleNo a ≤ articleNo b.

(** The link to the article of an event. *)
Definition event_url (self : SmuCalendarEvent) : string :=
  "https://www.smu.ac.kr/kor/life/academicCalendar.do?mode=view&articleNo="
  +:+ str (articleNo self) +:+ "&boardNo=" +:+ boardNo self.

(** The order of the calendar, written out on the year, the month and the
    day: [a] is the day of [b] or an earlier day. *)
Definition date_leb (a b : datetime.t) : bool :=
  (datetime.year a <? datetime.year b)
  || ((datetime.year a =? datetime.year b)
      && ((datetime.month a <? datetime.month b)
          || ((datetime.month a =? datetime.month b)
              && (datetime.day a <=? datetime.day b)))).

(** The keys of a record, in the order [_deserialize] reads them. *)
Definition field_keys : list string :=
  ["boardNo"; "articleNo"; "articleTitle"; "articleText"; "createDt";
   "orderDt"; "updateDt"; "etcChar4"; "etcChar5"; "etcChar6"; "etcChar7";
   "etcChar8"; "etcChar9"].

(** [item] is a record that holds, under each of the thirteen keys, the value
    of the field of [e] of that name. *)
Definition has_fields (item : json) (e : SmuCalendarEvent) : Prop :=
  ∃ o, item = JObj o
    ∧ o !! "boardNo" = Some (JStr (boardNo e))
    ∧ o !! "articleNo" = Some (JInt (articleNo e))
    ∧ o !! "articleTitle" = Some (JStr (articleTitle e))
    ∧ o !! "articleText" = Some (JStr (articleText e))
    ∧ o !! "createDt" = Some (JInt (createDt e))
    ∧ o !! "orderDt" = Some (JInt (orderDt e))
    ∧ o !! "updateDt" = Some (JInt (updateDt e))
    ∧ o !! "etcChar4" = Some (JStr (etcChar4 e))
    ∧ o !! "etcChar5" = Some (JStr (etcChar5 e))
    ∧ o !! "etcChar6" = Some (JStr (etcChar6 e))
    ∧ o !! "etcChar7" = Some (JStr (etcChar7 e))
    ∧ o !! "etcChar8" = Some (JStr (etcChar8 e))
    ∧ o !! "etcChar9" = Some (JStr (etcChar9 e)).

(** [item] is a record without the key [key]. *)
Definition lacks (item : json) (key : string) : Prop :=
  ∃ o, item = JObj o ∧ o !! key = None.

(** ** Concrete worlds and records, for the closed examples *)

#[global] Instance Request_eq_dec : EqDecision Request.
Proof. solve_decision. Defined.

(** The record the endpoint would send for an event. *)
Definition record_of (e : SmuCalendarEvent) : json :=
  JObj (list_to_map
    [("boardNo", JStr (boardNo e)); ("articleNo", JInt (articleNo e));
     ("articleTitle", JStr (articleTitle e)); ("articleText", JStr (articleText e));
     ("createDt", JInt (createDt e)); ("orderDt", JInt (orderDt e));
     ("updateDt", JInt (updateDt e));
     ("etcChar4", JStr (etcChar4 e)); ("etcChar5", JStr (etcChar5 e));
     ("etcChar6", JStr (etcChar6 e)); ("etcChar7", JStr (etcChar7 e));
     ("etcChar8", JStr (etcChar8 e)); ("etcChar9", JStr (etcChar9 e))]).

(** [{"success": true, "list": [...]}] *)
Definition response_of (items : list json) : json :=
  JObj (list_to_map [("success", JBool true); ("list", JList items)]).

(** An endpoint that answers the listed years and is unreachable for the
    others. *)
Fixpoint answer (answers : list (Z * Result json)) (r : Request) : Result json :=
  match answers with
  | [] => Raise RequestException
  | (year, res) :: rest =>
      if bool_decide (request_of year = r) then res else answer rest r
  end.

Definition typed_result (res : Result json) : bool :=
  match res with Ok j => typed_response j | Raise _ => true end.

Definition answer_typed (answers : list (Z * Result json)) :
  forallb (λ a, typed_result a.2) answers = true →
  ∀ r j, answer answers r = Ok j → typed_response j = true.
Proof.
  induction answers as [|[year res] rest IH]; simpl; intros Hall r j Hr.
  - discriminate.
  - apply andb_prop in Hall as [Hres Hrest].
    destruct (bool_decide (request_of year = r)).
    + subst res. exact Hres.
    + exact (IH Hrest r j Hr).
Qed.

(** A world with that endpoint, in year [now], whose file system works and
    whose sets are iterated from the last entry to the first. *)
Definition serving (now : Z) (answers : list (Z * Result json))
    (H : forallb (λ a, typed_result a.2) answers = true) : World :=
  mkWorld now (answer answers) (answer_typed answers H)
          reverse reverse_Permutation
          (λ _, false) (λ _, Ok ()) (λ _, Ok ()) (λ _, Ok ()).

(** A parser that follows the two written-out paths of [goahead]; any other
    text it hands over as one chunk.  The bodies of the records below are
    plain ASCII text, but for one that opens an unknown marked section. *)
Definition text_feed (rawdata : string) : Result (list string) :=
  match goahead_text rawdata with
  | Some chunks => Ok chunks
  | None =>
      if goahead_marked_section rawdata then Raise AssertionError
      else Ok [rawdata]
  end.

Definition text_feed_text (rawdata : string) (chunks : list string) :
  goahead_text rawdata = Some chunks → text_feed rawdata = Ok chunks.
Proof. intros H. unfold text_feed. rewrite H. reflexivity. Qed.

Definition text_feed_marked_section (rawdata : string) :
  goahead_marked_section rawdata = true → text_feed rawdata = Raise AssertionError.
Proof.
  unfold text_feed, goahead_marked_section, goahead_text.
  set (l := String.list_ascii_of_string rawdata).
  destruct (existsb (λ c, 128 <=? code c) l); [discriminate|].
  rewrite orb_false_r. intros Hm.
  destruct (existsb (is_char "<"%char) l) eqn:Hlt; [by rewrite Hm|].
  exfalso. revert Hm. clear -Hlt. induction l as [|x l IH]; [discriminate|].
  simpl in *. apply orb_false_elim in Hlt as [-> Hl]. by apply IH.
Qed.

Definition text_parser : HTMLParser :=
  {| feed := text_feed;
     feed_text := text_feed_text;
     feed_marked_section := text_feed_marked_section |}.

Definition initial : State := mkState [] ∅.

Definition enrolment : SmuCalendarEvent :=
  mkSmuCalendarEvent "85" 42 "Enrolment" "Enrolment opens"
    1672028823000 1672028823000 1674201156000
    "2024" "first_term" "2024-03-01" "2024-03-05" "bachelor" "seoul".

(** The same article with another title. *)
Definition enrolment_retitled : SmuCalendarEvent :=
  mkSmuCalendarEvent "85" 42 "Enrolment (changed)" "Enrolment opens"
    1672028823000 1672028823000 1674201156000
    "2024" "first_term" "2024-03-01" "2024-03-05" "bachelor" "seoul".

(** The example of the specification: the end lies before the start. *)
Definition inverted : SmuCalendarEvent :=
  mkSmuCalendarEvent "85" 100 "Ceremony" "Ceremony"
    1672028823000 1672028823000 1674201156000
    "2024" "first_term" "2024-03-01" "2024-02-28" "bachelor" "seoul".

(** [inverted] with other values in the five fields [to_ics] does not read. *)
Definition inverted_elsewhere : SmuCalendarEvent :=
  mkSmuCalendarEvent "85" 100 "Ceremony" "Ceremony"
    1672028823000 5 1674201156000
    "1999" "second_term" "2024-03-01" "2024-02-28" "master" "cheonan".

(** A record whose start is no date: there is no month 13. *)
Definition misdated : SmuCalendarEvent :=
  mkSmuCalendarEvent "85" 7 "Exams" "Exams"
    1672028823000 1672028823000 1674201156000
    "2024" "first_term" "2024-13-01" "2024-03-05" "bachelor" "seoul".

Definition examinations : SmuCalendarEvent :=
  mkSmuCalendarEvent "85" 7 "Exams" "Exams"
    1672028823000 1672028823000 1674201156000
    "2024" "first_term" "2024-04-20" "2024-04-26" "bachelor" "seoul".

(** 2023 and 2024 both list article 42, under two titles. *)
Definition world_retitled : World :=
  serving 2024
    [(2023, Ok (response_of [record_of enrolment]));
     (2024, Ok (response_of [record_of enrolment_retitled]))] eq_refl.

(** 2024 lists a record whose start is no date; the other years answer
    [{"success": false}]. *)
Definition refusal : json := JObj (list_to_map [("success", JBool false)]).

Definition world_misdated : World :=
  serving 2024
    [(2021, Ok refusal); (2022, Ok refusal); (2023, Ok refusal);
     (2024, Ok (response_of [record_of misdated]));
     (2025, Ok refusal); (2026, Ok refusal)] eq_refl.

(** Two years overlap on article 42 and list two more articles. *)
Definition world_regular : World :=
  serving 2024
    [(2023, Ok (response_of [record_of inverted; record_of enrolment]));
     (2024, Ok (response_of [record_of enrolment; record_of examinations]))] eq_refl.

(** The endpoint is unreachable. *)
Definition world_unreachable : World := serving 2024 [] eq_refl.

(** ** Vocabulary of the further properties *)

(** The time stamps [_msptime] accepts: 0001-01-01 00:00:00.000 to
    9999-12-31 23:59:59.999, in milliseconds from 1970-01-01 00:00. *)
Definition MS_MIN : Z := -62135596800000.
Definition MS_MAX : Z := 253402300799999.

(** The milliseconds from 1970-01-01 00:00 to a date-time. *)
Definition epoch_milliseconds (d : datetime.t) : Z :=
  (datetime.toordinal d - 719163) * 86400000
  + ((datetime.hour d * 60 + datetime.minute d) * 60 + datetime.second d) * 1000
  + datetime.microsecond d / 1000.

(** The last step of [_ord2ymd]: month and day of the [n]-th day of a year,
    counted from 0. *)
Definition month_day (leapyear : bool) (n : Z) : Z * Z :=
  let m := Z.shiftr (n + 50) 5 in
  let preceding :=
    datetime.index datetime._DAYS_BEFORE_MONTH m
    + (if (2 <? m) && leapyear then 1 else 0) in
  if n <? preceding then
    let m := m - 1 in
    let preceding :=
      preceding
      - (datetime.index datetime._DAYS_IN_MONTH m
         + (if (m =? 2) && leapyear then 1 else 0)) in
    (m, n - preceding + 1)
  else (m, n - preceding + 1).

(** [month_day] gives a day of a month, and it is the [n]-th of the year. *)
Definition month_day_ok (leapyear : bool) (n : Z) : bool :=
  let '(m, d) := month_day leapyear n in
  let dim :=
    if (m =? 2) && leapyear then 29 else datetime.index datetime._DAYS_IN_MONTH m in
  let dbm :=
    datetime.index datetime._DAYS_BEFORE_MONTH m
    + (if (2 <? m) && leapyear then 1 else 0) in
  (1 <=? m) && (m <=? 12) && (1 <=? d) && (d <=? dim) && (dbm + d =? n + 1).

(** The record [item] with one more key. *)
Definition with_key (key : string) (v : json) (item : json) : json :=
  match item with
  | JObj o => JObj (<[key := v]> o)
  | _ => item
  end.

(** The two records the first loop of [fetch_events] logs for a year, and
    the two records the second loop logs. *)
Definition target_records (w : World) (year : Z) : list LogRecord :=
  [mkLogRecord INFO ("🌀 start crawling " +:+ str year +:+ " events.");
   match get_events w year with
   | Ok _ => mkLogRecord INFO ("✅ crawled " +:+ str year +:+ " events successfully.")
   | Raise _ => mkLogRecord ERROR ("❌ failed to crawl " +:+ str year +:+ " events.")
   end].

Definition additional_records (w : World) (year : Z) : list LogRecord :=
  [mkLogRecord INFO ("start crawling " +:+ str year +:+ " events. (additional)");
   match get_events w year with
   | Ok _ =>
       mkLogRecord INFO
         ("✅ crawled " +:+ str year +:+ " events successfully. (additional)")
   | Raise _ =>
       mkLogRecord WARNING
         ("⚠️ failed to crawl " +:+ str year +:+ " events. (additional)")
   end].

Definition fetch_log (w : World) : list LogRecord :=
  (TARGET_YEARS w ≫= target_records w)
  ++ (ADDITIONAL_TARGET_YEARS w ≫= additional_records w).

(** The same world with another [os.makedirs]. *)
Definition with_makedirs (w : World) (makedirs : string → Result unit) : World :=
  mkWorld (CURRENT_YEAR w) (post_json w) (post_typed w)
          (iter_events w) (iter_events_order w)
          (os_path_exists w) makedirs (open_write w) (writelines w).

(** ASCII characters other than ['<']. *)
Definition is_text (c : ascii) : bool := negb (is_char "<"%char c) && (code c <? 128).

(** Text that holds no markup and no reference: ASCII without ['<'] and ['&']. *)
Definition plain_text (s : string) : bool :=
  forallb (λ c, is_text c && negb (is_char "&"%char c)) (String.list_ascii_of_string s).

(** The characters that end the wait of the parser after an ['&']. *)
Definition ends_reference (c : ascii) : bool := is_space c || is_char ";"%char c.

(** The regular endpoint in a world where the directory [docs] exists and
    [os.makedirs] would fail. *)
Definition world_with_directory : World :=
  mkWorld 2024 (post_json world_regular) (post_typed world_regular)
          (iter_events world_regular) (iter_events_order world_regular)
          (λ _, true) (λ _, Raise OSError) (λ _, Ok ()) (λ _, Ok ()).

(** The regular endpoint in a world where the file can be opened and the
    writing fails. *)
Definition world_disk_full : World :=
  mkWorld 2024 (post_json world_regular) (post_typed world_regular)
          (iter_events world_regular) (iter_events_order world_regular)
          (λ _, true) (λ _, Ok ()) (λ _, Ok ()) (λ _, Raise OSError).

(** A record with good dates whose body opens an unknown marked section. *)
Definition garbled : SmuCalendarEvent :=
  mkSmuCalendarEvent "85" 9 "Notice" "<![x]>"
    1672028823000 1672028823000 1674201156000
    "2024" "first_term" "2024-05-01" "2024-05-02" "bachelor" "seoul".

(** The same events listed in two orders. *)
Definition listed : list SmuCalendarEvent := [inverted; enrolment; examinations].
Definition listed_otherwise : list SmuCalendarEvent := [examinations; inverted; enrolment].

(** What [to_ics] makes of two of the records. *)
Definition enrolment_event : ics.Event :=
  ics.mkEvent "42" "Enrolment" "Enrolment opens"
    (datetime.mk 2024 3 1 0 0 0 0) (datetime.mk 2024 3 5 0 0 0 0)
    (datetime.mk 2022 12 26 4 27 3 0) (datetime.mk 2023 1 20 7 52 36 0)
    "https://www.smu.ac.kr/kor/life/academicCalendar.do?mode=view&articleNo=42&boardNo=85"
    true.

Definition examinations_event : ics.Event :=
  ics.mkEvent "7" "Exams" "Exams"
    (datetime.mk 2024 4 20 0 0 0 0) (datetime.mk 2024 4 26 0 0 0 0)
    (datetime.mk 2022 12 26 4 27 3 0) (datetime.mk 2023 1 20 7 52 36 0)
    "https://www.smu.ac.kr/kor/life/academicCalendar.do?mode=view&articleNo=7&boardNo=85"
    true.

(** * Properties *)

(** ** Results *)

Lemma mapR_Ok {A B} (f : A → Result B) (l : list A) (ys : list B) :
  mapR f l = Ok ys ↔ Forall2 (λ x y, f x = Ok y) l ys.
Proof.
  revert ys. induction l as [|x l IH]; intros ys; simpl.
  - split.
    + intros [= <-]. constructor.
    + intros Hf. inversion Hf. reflexivity.
  - split.
    + destruct (f x) as [y|e] eqn:Hx; simpl; [|discriminate].
      destruct (mapR f l) as [ys'|e] eqn:Hl; simpl; [|discriminate].
      intros [= <-]. constructor; [exact Hx|]. apply IH. reflexivity.
    + intros Hf. inversion Hf as [|x' y l' ys' Hx Hl]; subst.
      rewrite Hx. simpl. apply IH in Hl. rewrite Hl. reflexivity.
Qed.

Lemma mapR_length {A B} (f : A → Result B) (l : list A) (ys : list B) :
  mapR f l = Ok ys → length ys = length l.
Proof. intros H. apply mapR_Ok in H. symmetry. exact (Forall2_length _ _ _ H). Qed.

(** The first element on which [f] raises decides the exception. *)
Lemma mapR_first_Raise {A B} (f : A → Result B) (good : list A) (bad : A)
    (rest : list A) (e : exn) :
  Forall (λ x, is_Ok (f x) = true) good → f bad = Raise e →
  mapR f (good ++ bad :: rest) = Raise e.
Proof.
  intros Hgood Hbad. induction Hgood as [|x good Hx _ IH]; simpl.
  - rewrite Hbad. reflexivity.
  - destruct (f x); [|discriminate]. simpl. rewrite IH. reflexivity.
Qed.

Lemma mapR_Raise_elem {A B} (f : A → Result B) (l : list A) (e : exn) :
  mapR f l = Raise e → ∃ x, x ∈ l ∧ f x = Raise e.
Proof.
  induction l as [|x l IH]; simpl; [discriminate|].
  destruct (f x) as [y|e'] eqn:Hx; simpl.
  - destruct (mapR f l) as [ys|e'] eqn:Hl; simpl; [discriminate|].
    intros [= ->]. destruct (IH eq_refl) as (x' & Hin & Hx').
    exists x'. split; [by apply list_elem_of_further | exact Hx'].
  - intros [= ->]. exists x. split; [by apply list_elem_of_here | exact Hx].
Qed.

Lemma mapR_elem_Raise {A B} (f : A → Result B) (l : list A) (x : A) :
  x ∈ l → is_Ok (f x) = false → is_Ok (mapR f l) = false.
Proof.
  intros Hin Hx. induction Hin as [x l|x y l _ IH]; simpl.
  - destruct (f x); [discriminate Hx | reflexivity].
  - destruct (f y); simpl; [|reflexivity].
    specialize (IH Hx). destruct (mapR f l); simpl; [discriminate IH | reflexivity].
Qed.

(** ** Date-times *)

Lemma cmp_tuple_refl (a : list Z) : datetime.cmp_tuple a a = Eq.
Proof. induction a as [|x a IH]; simpl; [reflexivity|]. by rewrite Z.compare_refl. Qed.

Lemma cmp_tuple_antisym (a b : list Z) :
  datetime.cmp_tuple b a = CompOpp (datetime.cmp_tuple a b).
Proof.
  revert b. induction a as [|x a IH]; intros [|y b]; simpl; try reflexivity.
  rewrite (Z.compare_antisym x y). destruct (x ?= y); simpl; auto.
Qed.

Lemma datetime_max_cases (a b : datetime.t) :
  datetime.max a b = (if datetime.ltb a b then b else a).
Proof.
  unfold datetime.max, datetime.gtb, datetime.ltb, datetime._cmp.
  rewrite (cmp_tuple_antisym (datetime.fields a) (datetime.fields b)).
  destruct (datetime.cmp_tuple (datetime.fields a) (datetime.fields b)); reflexivity.
Qed.

Lemma datetime_gtb_Gt (a b : datetime.t) :
  datetime.gtb a b = true ↔ datetime._cmp a b = Gt.
Proof. unfold datetime.gtb. apply bool_decide_eq_true. Qed.

Lemma datetime_leb_refl (a : datetime.t) : datetime.leb a a = true.
Proof.
  unfold datetime.leb, datetime.gtb, datetime._cmp.
  rewrite cmp_tuple_refl. reflexivity.
Qed.

Lemma datetime_leb_max_l (a b : datetime.t) : datetime.leb a (datetime.max a b) = true.
Proof.
  unfold datetime.max. destruct (datetime.gtb b a) eqn:E.
  - apply datetime_gtb_Gt in E. unfold datetime.leb, datetime.gtb, datetime._cmp in *.
    rewrite (cmp_tuple_antisym (datetime.fields b) (datetime.fields a)), E.
    reflexivity.
  - apply datetime_leb_refl.
Qed.

Lemma datetime_leb_max_r (a b : datetime.t) : datetime.leb b (datetime.max a b) = true.
Proof.
  unfold datetime.max. destruct (datetime.gtb b a) eqn:E.
  - apply datetime_leb_refl.
  - unfold datetime.leb. rewrite E. reflexivity.
Qed.

Lemma datetime_ltb_max (a b : datetime.t) : datetime.ltb (datetime.max a b) a = false.
Proof.
  pose proof (datetime_leb_max_l a b) as H.
  unfold datetime.leb, datetime.gtb, datetime.ltb, datetime._cmp in *.
  rewrite (cmp_tuple_antisym (datetime.fields a)).
  destruct (datetime.cmp_tuple (datetime.fields a) (datetime.fields (datetime.max a b)));
    simpl in *; done.
Qed.

(** ** Identity of events: the hash and the generated equality *)

Lemma astuple_inj (a b : SmuCalendarEvent) : astuple a = astuple b → a = b.
Proof. destruct a, b. unfold astuple. simpl. intros [=]. by subst. Qed.

Lemma __eq___true (a b : SmuCalendarEvent) : __eq__ a b = true ↔ a = b.
Proof.
  unfold __eq__. rewrite bool_decide_eq_true. split.
  - apply astuple_inj.
  - by intros ->.
Qed.

Lemma set_contains_elem (s : EventSet) (x : SmuCalendarEvent) :
  set_contains __hash__ __eq__ s x = true ↔ x ∈ s.
Proof.
  unfold set_contains. rewrite existsb_exists. split.
  - intros (y & Hin & Hy). apply andb_prop in Hy as [_ Hy].
    apply __eq___true in Hy. subst y. by apply list_elem_of_In.
  - intros Hin. exists x. split; [by apply list_elem_of_In|].
    apply andb_true_intro. split; [apply Z.eqb_refl | by apply __eq___true].
Qed.

Lemma elem_of_set_add (s : EventSet) (x y : SmuCalendarEvent) :
  y ∈ set_add __hash__ __eq__ s x ↔ y ∈ s ∨ y = x.
Proof.
  unfold set_add. destruct (set_contains __hash__ __eq__ s x) eqn:E.
  - apply set_contains_elem in E. split; [auto | by intros [?| ->]].
  - rewrite elem_of_app, list_elem_of_singleton. reflexivity.
Qed.

Lemma NoDup_set_add (s : EventSet) (x : SmuCalendarEvent) :
  NoDup s → NoDup (set_add __hash__ __eq__ s x).
Proof.
  intros Hs. unfold set_add. destruct (set_contains __hash__ __eq__ s x) eqn:E; [done|].
  apply NoDup_app. split; [done|]. split; [|apply NoDup_singleton].
  intros y Hy Hyx. apply list_elem_of_singleton in Hyx. subst y.
  apply set_contains_elem in Hy. congruence.
Qed.

Lemma elem_of_events_update (s other : EventSet) (y : SmuCalendarEvent) :
  y ∈ events_update s other ↔ y ∈ s ∨ y ∈ other.
Proof.
  unfold events_update, set_update. revert s.
  induction other as [|x other IH]; intros s; simpl.
  - rewrite elem_of_nil. tauto.
  - rewrite IH, elem_of_set_add, elem_of_cons. tauto.
Qed.

Lemma NoDup_events_update (s other : EventSet) :
  NoDup s → NoDup (events_update s other).
Proof.
  unfold events_update, set_update. revert s.
  induction other as [|x other IH]; intros s Hs; simpl; [done|].
  apply IH. by apply NoDup_set_add.
Qed.

Lemma elem_of_events_of (l : list SmuCalendarEvent) (y : SmuCalendarEvent) :
  y ∈ events_of l ↔ y ∈ l.
Proof.
  pose proof (elem_of_events_update [] l y) as H.
  unfold events_of, set_of. unfold events_update, set_update in H.
  rewrite H, elem_of_nil. tauto.
Qed.

Lemma NoDup_events_of (l : list SmuCalendarEvent) : NoDup (events_of l).
Proof. apply (NoDup_events_update [] l). constructor. Qed.

(** ** [sorted] with [__lt__] *)

Lemma insort_Permutation (x : SmuCalendarEvent) (l : list SmuCalendarEvent) :
  insort __lt__ x l ≡ₚ x :: l.
Proof.
  induction l as [|y l IH]; simpl; [done|].
  destruct (__lt__ y x); [|done].
  rewrite IH. apply Permutation_swap.
Qed.

Lemma sorted_Permutation (l : list SmuCalendarEvent) : sorted __lt__ l ≡ₚ l.
Proof.
  induction l as [|x l IH]; simpl; [done|].
  rewrite insort_Permutation. by constructor.
Qed.

Lemma insort_HdRel (a x : SmuCalendarEvent) (l : list SmuCalendarEvent) :
  by_articleNo a x → HdRel by_articleNo a l → HdRel by_articleNo a (insort __lt__ x l).
Proof.
  intros Hax Hal. destruct l as [|y l]; simpl.
  - by constructor.
  - destruct (__lt__ y x); constructor; [by inversion Hal | done].
Qed.

Lemma insort_Sorted (x : SmuCalendarEvent) (l : list SmuCalendarEvent) :
  Sorted by_articleNo l → Sorted by_articleNo (insort __lt__ x l).
Proof.
  induction 1 as [|y l Hl IH Hy]; simpl.
  - repeat constructor.
  - unfold __lt__. destruct (articleNo y <? articleNo x) eqn:E.
    + constructor; [exact IH|].
      apply insort_HdRel; [|exact Hy]. unfold by_articleNo. lia.
    + constructor; [by constructor|]. constructor. unfold by_articleNo. lia.
Qed.

Lemma sorted_Sorted (l : list SmuCalendarEvent) :
  Sorted by_articleNo (sorted __lt__ l).
Proof.
  induction l as [|x l IH]; simpl; [constructor|]. by apply insort_Sorted.
Qed.

Lemma sorted_StronglySorted (l : list SmuCalendarEvent) :
  StronglySorted by_articleNo (sorted __lt__ l).
Proof.
  apply Sorted_StronglySorted; [|apply sorted_Sorted].
  intros a b c. unfold by_articleNo. lia.
Qed.

(** Ascending and free of repeated article numbers is strictly ascending. *)
Lemma StronglySorted_strict (l : list SmuCalendarEvent) :
  StronglySorted by_articleNo l → NoDup (articleNo <$> l) →
  StronglySorted (λ a b, articleNo a < articleNo b) l.
Proof.
  induction 1 as [|x l Hl IH Hx]; intros Hnd; [constructor|].
  rewrite fmap_cons in Hnd. apply NoDup_cons in Hnd as [Hnotin Hnd].
  constructor; [by apply IH|].
  apply Forall_forall. intros y Hy.
  rewrite Forall_forall in Hx. specialize (Hx y Hy). unfold by_articleNo in Hx.
  assert (articleNo x ≠ articleNo y).
  { intros Heq. apply Hnotin. rewrite Heq. by apply list_elem_of_fmap_2. }
  lia.
Qed.

(** ** The orchestrator *)

Lemma crawl_target_run (w : World) (events : EventSet) (year : Z) (st : State) :
  crawl_target w events year st =
    (Ok (crawled w events year),
     mkState
       (records st
        ++ [mkLogRecord INFO ("🌀 start crawling " +:+ str year +:+ " events.");
            match get_events w year with
            | Ok _ =>
                mkLogRecord INFO ("✅ crawled " +:+ str year +:+ " events successfully.")
            | Raise _ =>
                mkLogRecord ERROR ("❌ failed to crawl " +:+ str year +:+ " events.")
            end])
       (files st)).
Proof.
  unfold crawl_target, crawled, try_except_else, log, lift, mbind, Run_bind, mret, Run_ret.
  simpl. destruct (get_events w year); simpl; rewrite <- app_assoc; reflexivity.
Qed.

Lemma crawl_additional_run (w : World) (events : EventSet) (year : Z) (st : State) :
  crawl_additional w events year st =
    (Ok (crawled w events year),
     mkState
       (records st
        ++ [mkLogRecord INFO ("start crawling " +:+ str year +:+ " events. (additional)");
            match get_events w year with
            | Ok _ =>
                mkLogRecord INFO
                  ("✅ crawled " +:+ str year +:+ " events successfully. (additional)")
            | Raise _ =>
                mkLogRecord WARNING
                  ("⚠️ failed to crawl " +:+ str year +:+ " events. (additional)")
            end])
       (files st)).
Proof.
  unfold crawl_additional, crawled, try_except_else, log, lift, mbind, Run_bind, mret, Run_ret.
  simpl. destruct (get_events w year); simpl; rewrite <- app_assoc; reflexivity.
Qed.

(** A loop whose body always returns, leaving the files alone, does so too. *)
Lemma for_each_returns {X} (body : EventSet → X → Run EventSet)
    (pure : EventSet → X → EventSet) (l : list X) :
  (∀ s x st, ∃ logs,
      body s x st = (Ok (pure s x), mkState (records st ++ logs) (files st))) →
  ∀ s st, ∃ logs,
      for_each body l s st
      = (Ok (fold_left pure l s), mkState (records st ++ logs) (files st)).
Proof.
  intros Hbody. induction l as [|x l IH]; intros s st; simpl.
  - exists []. rewrite app_nil_r. by destruct st.
  - destruct (Hbody s x st) as [logs1 H1].
    destruct (IH (pure s x) (mkState (records st ++ logs1) (files st))) as [logs2 H2].
    exists (logs1 ++ logs2).
    unfold mbind, Run_bind. rewrite H1, H2. simpl. by rewrite app_assoc.
Qed.

Lemma fetch_events_run (w : World) (st : State) :
  ∃ logs, fetch_events w st
          = (Ok (aggregated w), mkState (records st ++ logs) (files st)).
Proof.
  unfold fetch_events, aggregated. rewrite fold_left_app.
  destruct (for_each_returns (crawl_target w) (crawled w) (TARGET_YEARS w)) with
    (s := @nil SmuCalendarEvent) (st := st) as [logs1 H1].
  { intros s x st0. eexists. apply crawl_target_run. }
  destruct (for_each_returns (crawl_additional w) (crawled w) (ADDITIONAL_TARGET_YEARS w))
    with (s := fold_left (crawled w) (TARGET_YEARS w) [])
         (st := mkState (records st ++ logs1) (files st)) as [logs2 H2].
  { intros s x st0. eexists. apply crawl_additional_run. }
  exists (logs1 ++ logs2).
  unfold mbind, Run_bind. rewrite H1, H2. simpl.
  by rewrite app_assoc.
Qed.

Lemma for_each_logs {X} (body : EventSet → X → Run EventSet)
    (pure : EventSet → X → EventSet) (logs : X → list LogRecord) (l : list X) :
  (∀ s x st,
      body s x st = (Ok (pure s x), mkState (records st ++ logs x) (files st))) →
  ∀ s st,
    for_each body l s st
    = (Ok (fold_left pure l s), mkState (records st ++ (l ≫= logs)) (files st)).
Proof.
  intros Hbody. induction l as [|x l IH]; intros s st.
  - simpl. rewrite app_nil_r. by destruct st.
  - cbn [for_each fold_left]. unfold mbind at 1, Run_bind.
    rewrite Hbody, IH. cbn [records files]. rewrite bind_cons.
    by rewrite (assoc_L (++)).
Qed.

Lemma fetch_events_log (w : World) (st : State) :
  fetch_events w st
  = (Ok (aggregated w), mkState (records st ++ fetch_log w) (files st)).
Proof.
  unfold fetch_events, aggregated, fetch_log. rewrite fold_left_app.
  unfold mbind at 1, Run_bind.
  rewrite (for_each_logs (crawl_target w) (crawled w) (target_records w));
    [|intros; apply crawl_target_run].
  rewrite (for_each_logs (crawl_additional w) (crawled w) (additional_records w));
    [|intros; apply crawl_additional_run].
  cbn [records files]. by rewrite (assoc_L (++)).
Qed.

Lemma for_each_add_event `{HTMLParser} (l : list SmuCalendarEvent)
    (icalendar : ics.Calendar) (st : State) :
  for_each add_event l icalendar st =
    ((λ outs, ics.mkCalendar (ics.creator icalendar) (ics.added icalendar ++ outs))
       <$> mapR to_ics l, st).
Proof.
  revert icalendar. induction l as [|x l IH]; intros icalendar; simpl.
  - unfold mret, Run_ret, fmap, Result_fmap. rewrite app_nil_r. by destruct icalendar.
  - unfold mbind at 1, Run_bind, add_event, lift.
    destruct (to_ics x) as [out|e]; simpl; [|reflexivity].
    rewrite IH. simpl. destruct (mapR to_ics l); simpl; [|reflexivity].
    by rewrite <- app_assoc.
Qed.

(** [main], step by step: the crawl always returns; the conversion of the
    sorted events, the directory, the opening of the file and the writing
    can each end the run, and only the last one leaves a file behind. *)
Lemma main_with_log `{HTMLParser} (w : World) (st : State) :
  let st1 := mkState (records st ++ fetch_log w) (files st) in
  let st2 :=
    mkState
      (records st1
       ++ [mkLogRecord INFO ("📋 writing events on " +:+ dquote
                             +:+ ICS_FILE_OUTPUT_PATH +:+ dquote +:+ ".")])
      (files st) in
  main w st =
    match mapR to_ics (sorted __lt__ (iter_events w (aggregated w))) with
    | Raise e => (Raise e, st1)
    | Ok outs =>
        match (if os_path_exists w ICS_FILE_OUTPUT_DIR then Ok ()
               else os_makedirs w ICS_FILE_OUTPUT_DIR) with
        | Raise e => (Raise e, st2)
        | Ok _ =>
            match open_write w ICS_FILE_OUTPUT_PATH with
            | Raise e => (Raise e, st2)
            | Ok _ =>
                match writelines w ICS_FILE_OUTPUT_PATH with
                | Raise e =>
                    (Raise e,
                     mkState (records st2)
                       (<[ICS_FILE_OUTPUT_PATH :=
                            Partial (ics.mkCalendar ICS_AUTHOR outs)]> (files st)))
                | Ok _ =>
                    (Ok (),
                     mkState (records st2)
                       (<[ICS_FILE_OUTPUT_PATH :=
                            Document (ics.mkCalendar ICS_AUTHOR outs)]> (files st)))
                end
            end
        end
    end.
Proof.
  intros st1 st2. subst st1 st2.
  unfold main. unfold mbind at 1, Run_bind. rewrite fetch_events_log.
  unfold mbind at 1, Run_bind. rewrite for_each_add_event.
  destruct (mapR to_ics (sorted __lt__ (iter_events w (aggregated w)))) as [outs|e];
    simpl; [|reflexivity].
  unfold mbind, Run_bind, log, write_calendar, lift, mret, Run_ret. simpl.
  destruct (os_path_exists w ICS_FILE_OUTPUT_DIR); simpl.
  - destruct (open_write w ICS_FILE_OUTPUT_PATH); [|reflexivity].
    destruct (writelines w ICS_FILE_OUTPUT_PATH); reflexivity.
  - destruct (os_makedirs w ICS_FILE_OUTPUT_DIR); simpl; [|reflexivity].
    destruct (open_write w ICS_FILE_OUTPUT_PATH); [|reflexivity].
    destruct (writelines w ICS_FILE_OUTPUT_PATH); reflexivity.
Qed.

(** The events [main] converts are the aggregated ones, each once. *)
Lemma converted_Permutation (w : World) :
  sorted __lt__ (iter_events w (aggregated w)) ≡ₚ aggregated w.
Proof. by rewrite sorted_Permutation, iter_events_order. Qed.

Lemma aggregated_nil (w : World) :
  (∀ year, year ∈ TARGET_YEARS w ++ ADDITIONAL_TARGET_YEARS w →
           is_Ok (get_events w year) = false) →
  aggregated w = [].
Proof.
  unfold aggregated. generalize (TARGET_YEARS w ++ ADDITIONAL_TARGET_YEARS w).
  intros years Hfail. induction years as [|year years IH]; simpl; [reflexivity|].
  unfold crawled at 2. pose proof (Hfail year (list_elem_of_here _ _)) as Hy.
  destruct (get_events w year); [discriminate Hy|].
  apply IH. intros y Hin. apply Hfail. by apply list_elem_of_further.
Qed.

(** ** Conversion *)

Lemma strptime_Ymd_Raise (s : string) (x : exn) :
  datetime.strptime_Ymd s = Raise x → x = ValueError.
Proof.
  unfold datetime.strptime_Ymd, datetime.of_date.
  destruct (datetime.re_Ymd _) as [[[[y m] d] [|c rest]]|]; try congruence.
  match goal with |- context [if ?b then _ else _] => destruct b end; congruence.
Qed.

Lemma timedelta_new_Raise (d s us : Z) (x : exn) :
  datetime.timedelta.new d s us = Raise x → x = OverflowError.
Proof.
  unfold datetime.timedelta.new.
  match goal with |- context [if ?b then _ else _] => destruct b end; congruence.
Qed.

Lemma datetime_add_Raise (d : datetime.t) (td : datetime.timedelta.t) (x : exn) :
  datetime.add d td = Raise x → x = OverflowError.
Proof.
  unfold datetime.add.
  destruct (datetime.timedelta.new _ _ _) as [delta|e] eqn:E.
  - unfold mbind, Result_bind.
    match goal with |- context [if ?b then _ else _] => destruct b end; [|congruence].
    destruct (datetime._ord2ymd _) as [[y m] dd]. discriminate.
  - unfold mbind, Result_bind. intros [= <-]. by eapply timedelta_new_Raise.
Qed.

Lemma _msptime_Raise (ms : Z) (x : exn) : _msptime ms = Raise x → x = OverflowError.
Proof.
  unfold _msptime, datetime.timedelta.of_milliseconds.
  destruct (datetime.timedelta.new _ _ _) as [td|e] eqn:E; unfold mbind, Result_bind.
  - apply datetime_add_Raise.
  - intros [= <-]. by eapply timedelta_new_Raise.
Qed.

Lemma int_to_str_Ok (n : Z) (s : string) : int_to_str n = Ok s → s = str n.
Proof. unfold int_to_str. destruct (_ <=? _); congruence. Qed.

Lemma int_to_str_Raise (n : Z) (x : exn) : int_to_str n = Raise x → x = ValueError.
Proof. unfold int_to_str. destruct (_ <=? _); congruence. Qed.

(** [to_ics], argument by argument: the second [str] of the article number
    and the check of [ics.Event] cannot fail once the arguments before them
    are there. *)
Lemma to_ics_run `{HTMLParser} (e : SmuCalendarEvent) :
  to_ics e =
    (uid ← int_to_str (articleNo e);
     description ← _cleanhtml (articleText e);
     ds ← _strptime (etcChar6 e);
     de ← _strptime (etcChar7 e);
     created ← _msptime (createDt e);
     last_modified ← _msptime (updateDt e);
     Ok (ics.mkEvent (str (articleNo e)) (articleTitle e) description
           ds (datetime.max ds de) created last_modified (event_url e) true)).
Proof.
  unfold to_ics.
  destruct (int_to_str (articleNo e)) as [uid|] eqn:Euid; simpl; [|reflexivity].
  apply int_to_str_Ok in Euid as ->.
  destruct (_cleanhtml (articleText e)); simpl; [|reflexivity].
  destruct (_strptime (etcChar6 e)); simpl; [|reflexivity].
  destruct (_strptime (etcChar7 e)); simpl; [|reflexivity].
  destruct (_msptime (createDt e)); simpl; [|reflexivity].
  destruct (_msptime (updateDt e)); simpl; [|reflexivity].
  unfold ics.Event_new. rewrite datetime_ltb_max. reflexivity.
Qed.

Lemma to_ics_Raise `{HTMLParser} (e : SmuCalendarEvent) (x : exn) :
  to_ics e = Raise x →
  x = ValueError ∨ x = OverflowError ∨ _cleanhtml (articleText e) = Raise x.
Proof.
  rewrite to_ics_run.
  destruct (int_to_str (articleNo e)) as [uid|xn] eqn:Euid; simpl.
  2: { intros [= <-]. left. by eapply int_to_str_Raise. }
  destruct (_cleanhtml (articleText e)) as [text|xt]; simpl.
  2: { intros [= <-]. auto. }
  destruct (_strptime (etcChar6 e)) as [ds|x6] eqn:E6; simpl.
  2: { intros [= <-]. left. by eapply strptime_Ymd_Raise. }
  destruct (_strptime (etcChar7 e)) as [de|x7] eqn:E7; simpl.
  2: { intros [= <-]. left. by eapply strptime_Ymd_Raise. }
  destruct (_msptime (createDt e)) as [c|xc] eqn:Ec; simpl.
  2: { intros [= <-]. right. left. by eapply _msptime_Raise. }
  destruct (_msptime (updateDt e)) as [u|xu] eqn:Eu; simpl.
  2: { intros [= <-]. right. left. by eapply _msptime_Raise. }
  discriminate.
Qed.

(** [to_ics], once both dates are parsed. *)
Lemma to_ics_parsed `{HTMLParser} (e : SmuCalendarEvent) (ds de : datetime.t) :
  _strptime (etcChar6 e) = Ok ds → _strptime (etcChar7 e) = Ok de →
  to_ics e =
    (uid ← int_to_str (articleNo e);
     description ← _cleanhtml (articleText e);
     created ← _msptime (createDt e);
     last_modified ← _msptime (updateDt e);
     Ok (ics.mkEvent (str (articleNo e)) (articleTitle e) description
           ds (datetime.max ds de) created last_modified (event_url e) true)).
Proof. intros Hs He. rewrite to_ics_run, Hs, He. reflexivity. Qed.

(** A date that does not parse is a [ValueError], unless the parser of the
    body raised before. *)
Lemma to_ics_unparsed `{HTMLParser} (e : SmuCalendarEvent) :
  is_Ok (_cleanhtml (articleText e)) = true →
  is_Ok (_strptime (etcChar6 e)) && is_Ok (_strptime (etcChar7 e)) = false →
  to_ics e = Raise ValueError.
Proof.
  rewrite to_ics_run. intros Htext.
  destruct (int_to_str (articleNo e)) as [uid|xn] eqn:Euid; simpl.
  2: { intros _. by rewrite (int_to_str_Raise _ _ Euid). }
  destruct (_cleanhtml (articleText e)) as [text|]; [simpl|discriminate Htext].
  destruct (_strptime (etcChar6 e)) as [ds|x6] eqn:E6; simpl.
  - destruct (_strptime (etcChar7 e)) as [de|x7] eqn:E7; simpl.
    + discriminate.
    + intros _. by rewrite (strptime_Ymd_Raise _ _ E7).
  - intros _. by rewrite (strptime_Ymd_Raise _ _ E6).
Qed.

Lemma to_ics_Ok `{HTMLParser} (e : SmuCalendarEvent) (out : ics.Event) :
  to_ics e = Ok out →
  ics.uid out = str (articleNo e) ∧ ics.name out = articleTitle e
  ∧ ics.all_day out = true
  ∧ datetime.leb (ics.begin out) (ics.end_ out) = true.
Proof.
  rewrite to_ics_run.
  destruct (int_to_str (articleNo e)); simpl; [|discriminate].
  destruct (_cleanhtml (articleText e)); simpl; [|discriminate].
  destruct (_strptime (etcChar6 e)) as [ds|]; simpl; [|discriminate].
  destruct (_strptime (etcChar7 e)) as [de|]; simpl; [|discriminate].
  destruct (_msptime (createDt e)) as [c|]; simpl; [|discriminate].
  destruct (_msptime (updateDt e)) as [u|]; simpl; [|discriminate].
  intros [= <-]. simpl. repeat split. apply datetime_leb_max_l.
Qed.

(** A date that [_strptime] returns is a day at midnight, and on such
    date-times the comparison of [datetime] is the order of the calendar. *)
Lemma _strptime_midnight (s : string) (d : datetime.t) :
  _strptime s = Ok d →
  datetime.hour d = 0 ∧ datetime.minute d = 0 ∧ datetime.second d = 0
  ∧ datetime.microsecond d = 0.
Proof.
  unfold _strptime, datetime.strptime_Ymd, datetime.of_date.
  destruct (datetime.re_Ymd _) as [[[[y m] dd] [|c rest]]|]; try discriminate.
  match goal with |- context [if ?b then _ else _] => destruct b end; [|discriminate].
  by intros [= <-].
Qed.

Lemma datetime_gtb_midnight (a b : datetime.t) :
  datetime.hour a = 0 → datetime.minute a = 0 → datetime.second a = 0 →
  datetime.microsecond a = 0 →
  datetime.hour b = 0 → datetime.minute b = 0 → datetime.second b = 0 →
  datetime.microsecond b = 0 →
  datetime.gtb a b = negb (date_leb a b).
Proof.
  intros Ha1 Ha2 Ha3 Ha4 Hb1 Hb2 Hb3 Hb4.
  unfold datetime.gtb, datetime._cmp, datetime.fields, date_leb.
  rewrite Ha1, Ha2, Ha3, Ha4, Hb1, Hb2, Hb3, Hb4. cbn [datetime.cmp_tuple].
  destruct (Z.compare_spec (datetime.year a) (datetime.year b)) as [Hy|Hy|Hy];
    [destruct (Z.compare_spec (datetime.month a) (datetime.month b)) as [Hm|Hm|Hm];
     [destruct (Z.compare_spec (datetime.day a) (datetime.day b)) as [Hd|Hd|Hd]| |]| |];
    simpl;
    repeat match goal with
    | |- context [?x <? ?y] => destruct (Z.ltb_spec x y); try lia
    | |- context [?x =? ?y] => destruct (Z.eqb_spec x y); try lia
    | |- context [?x <=? ?y] => destruct (Z.leb_spec x y); try lia
    end; reflexivity.
Qed.

(** The maximum of two parsed dates is the later day. *)
Lemma max_of_dates (s6 s7 : string) (ds de : datetime.t) :
  _strptime s6 = Ok ds → _strptime s7 = Ok de →
  datetime.max ds de = (if date_leb de ds then ds else de)
  ∧ date_leb ds (datetime.max ds de) = true
  ∧ date_leb de (datetime.max ds de) = true.
Proof.
  intros Hs He.
  apply _strptime_midnight in Hs as (Hs1 & Hs2 & Hs3 & Hs4).
  apply _strptime_midnight in He as (He1 & He2 & He3 & He4).
  unfold datetime.max.
  rewrite (datetime_gtb_midnight de ds) by done.
  assert (date_leb ds ds = true) as Hrefl.
  { unfold date_leb. rewrite Z.eqb_refl, Z.eqb_refl, Z.leb_refl.
    by rewrite !orb_true_r. }
  assert (date_leb de de = true) as Hrefl'.
  { unfold date_leb. rewrite Z.eqb_refl, Z.eqb_refl, Z.leb_refl.
    by rewrite !orb_true_r. }
  destruct (date_leb de ds) eqn:Hle; simpl.
  - by rewrite Hrefl.
  - split; [reflexivity|]. split; [|exact Hrefl'].
    revert Hle. unfold date_leb.
    repeat match goal with
    | |- context [?x <? ?y] => destruct (Z.ltb_spec x y)
    | |- context [?x =? ?y] => destruct (Z.eqb_spec x y)
    | |- context [?x <=? ?y] => destruct (Z.leb_spec x y)
    end; simpl; try reflexivity; try discriminate; intros _; lia.
Qed.

(** ** The crawler *)

Lemma _validate_Ok (j : json) :
  _validate j = Ok ()
  ↔ ∃ o l, j = JObj o ∧ o !! "success" = Some (JBool true)
           ∧ o !! "list" = Some (JList l).
Proof.
  unfold _validate, getitem, assert. split.
  - destruct j as [| | | | |o]; simpl; try discriminate.
    destruct (o !! "success") as [[|[|]| | | |]|] eqn:Hs; simpl; try discriminate.
    destruct (o !! "list") as [[| | | |l|]|] eqn:Hl; simpl; try discriminate.
    intros _. by exists o, l.
  - intros (o & l & -> & Hs & Hl). simpl. rewrite Hs. simpl. rewrite Hl. reflexivity.
Qed.

Lemma _validate_Raise (j : json) (e : exn) :
  _validate j = Raise e →
  e ∈ [TypeError; KeyError "success"; AssertionError; KeyError "list"].
Proof.
  unfold _validate, getitem, assert.
  destruct j as [| | | | |o]; simpl;
    try (intros [= <-]; apply list_elem_of_here).
  destruct (o !! "success") as [[|[|]| | | |]|]; simpl;
    try (intros [= <-]; set_solver).
  destruct (o !! "list") as [[| | | | |]|]; simpl;
    try (intros [= <-]; set_solver); discriminate.
Qed.

Lemma item_str_Ok (item : json) (k s : string) :
  item_str item k = Ok s ↔ ∃ o, item = JObj o ∧ o !! k = Some (JStr s).
Proof.
  unfold item_str, getitem. split.
  - destruct item as [| | | | |o]; simpl; try discriminate.
    destruct (o !! k) as [[| | | | |]|] eqn:E; simpl; try discriminate.
    intros [= ->]. by exists o.
  - intros (o & -> & Ho). simpl. rewrite Ho. reflexivity.
Qed.

Lemma item_int_Ok (item : json) (k : string) (z : Z) :
  item_int item k = Ok z ↔ ∃ o, item = JObj o ∧ o !! k = Some (JInt z).
Proof.
  unfold item_int, getitem. split.
  - destruct item as [| | | | |o]; simpl; try discriminate.
    destruct (o !! k) as [[| | | | |]|] eqn:E; simpl; try discriminate.
    intros [= ->]. by exists o.
  - intros (o & -> & Ho). simpl. rewrite Ho. reflexivity.
Qed.

(** One read that returned: name its value and go on to the next read. *)
Ltac bind_read :=
  match goal with
  | |- (?r ≫= _) = Ok _ → _ =>
      let E := fresh "E" in
      destruct r eqn:E; cbn [mbind Result_bind]; [|discriminate]
  end.

Lemma deserialize_item_Ok (item : json) (e : SmuCalendarEvent) :
  deserialize_item item = Ok e ↔ has_fields item e.
Proof.
  split.
  - unfold deserialize_item. do 13 bind_read. intros [= <-].
    repeat match goal with
           | E : item_str _ _ = Ok _ |- _ => apply item_str_Ok in E as (? & ? & ?)
           | E : item_int _ _ = Ok _ |- _ => apply item_int_Ok in E as (? & ? & ?)
           end.
    simplify_eq. eexists. split; [reflexivity|]. simpl. repeat split; assumption.
  - intros (o & -> & H1 & H2 & H3 & H4 & H5 & H6 & H7 & H8 & H9 & H10 & H11 & H12 & H13).
    unfold deserialize_item, item_str, item_int, getitem. simpl.
    rewrite H1, H2, H3, H4, H5, H6, H7, H8, H9, H10, H11, H12, H13. simpl.
    by destruct e.
Qed.

Lemma typed_keys_lookup (p : json → bool) (keys : list string)
    (o : gmap string json) (k : string) (v : json) :
  typed_keys p keys o = true → k ∈ keys → o !! k = Some v → p v = true.
Proof.
  unfold typed_keys. rewrite forallb_forall. intros Hall Hk Hv.
  apply list_elem_of_In in Hk. specialize (Hall k Hk). by rewrite Hv in Hall.
Qed.

(** Under the typing of a [World], reading a field returns its value or
    raises the [KeyError] of its key. *)
Lemma item_str_cases (o : gmap string json) (k : string) :
  typed_keys is_JStr str_keys o = true → k ∈ str_keys →
  (∃ s, o !! k = Some (JStr s) ∧ item_str (JObj o) k = Ok s)
  ∨ (o !! k = None ∧ item_str (JObj o) k = Raise (KeyError k)).
Proof.
  intros Ht Hk. unfold item_str, getitem. destruct (o !! k) as [v|] eqn:E.
  - left. pose proof (typed_keys_lookup _ _ _ _ _ Ht Hk E) as Hv.
    destruct v; try discriminate Hv. eauto.
  - right. auto.
Qed.

Lemma item_int_cases (o : gmap string json) (k : string) :
  typed_keys is_JInt int_keys o = true → k ∈ int_keys →
  (∃ z, o !! k = Some (JInt z) ∧ item_int (JObj o) k = Ok z)
  ∨ (o !! k = None ∧ item_int (JObj o) k = Raise (KeyError k)).
Proof.
  intros Ht Hk. unfold item_int, getitem. destruct (o !! k) as [v|] eqn:E.
  - left. pose proof (typed_keys_lookup _ _ _ _ _ Ht Hk E) as Hv.
    destruct v; try discriminate Hv. eauto.
  - right. auto.
Qed.

Ltac key_in_list := repeat first [apply list_elem_of_here | apply list_elem_of_further].

(** One read of [deserialize_item]: either the key is missing, which ends
    the proof with that key, or the value is bound and the next read comes. *)
Ltac read_key cases o k Ht :=
  let Hr := fresh "Hr" in
  let Hp := fresh "Hp" in
  destruct (cases o k Ht ltac:(key_in_list)) as [(? & Hp & Hr)|(Hp & Hr)];
  rewrite Hr; cbn [mbind Result_bind];
  [|exists k; split; [key_in_list|]; split; [by exists o | reflexivity]].

(** Reading goes through the keys in order and stops at the first one that
    is missing. *)
Lemma deserialize_item_lacks (item : json) (key : string) :
  typed_item item = true → key ∈ field_keys → lacks item key →
  ∃ key', key' ∈ field_keys ∧ lacks item key'
          ∧ deserialize_item item = Raise (KeyError key').
Proof.
  intros Htyped Hkey (o & -> & Hnone).
  unfold typed_item in Htyped. apply andb_prop in Htyped as [Hs Hi].
  unfold deserialize_item.
  read_key item_str_cases o "boardNo" Hs.
  read_key item_int_cases o "articleNo" Hi.
  read_key item_str_cases o "articleTitle" Hs.
  read_key item_str_cases o "articleText" Hs.
  read_key item_int_cases o "createDt" Hi.
  read_key item_int_cases o "orderDt" Hi.
  read_key item_int_cases o "updateDt" Hi.
  read_key item_str_cases o "etcChar4" Hs.
  read_key item_str_cases o "etcChar5" Hs.
  read_key item_str_cases o "etcChar6" Hs.
  read_key item_str_cases o "etcChar7" Hs.
  read_key item_str_cases o "etcChar8" Hs.
  read_key item_str_cases o "etcChar9" Hs.
  exfalso. unfold field_keys in Hkey.
  repeat (apply elem_of_cons in Hkey as [-> | Hkey]; [congruence|]).
  by apply elem_of_nil in Hkey.
Qed.

(** What the crawl leaves in the set: each fetched event once, none twice. *)
Lemma crawled_elem (w : World) (events : EventSet) (year : Z) (e : SmuCalendarEvent) :
  e ∈ crawled w events year
  ↔ e ∈ events ∨ ∃ evs, get_events w year = Ok evs ∧ e ∈ evs.
Proof.
  unfold crawled. destruct (get_events w year) as [evs|x].
  - rewrite elem_of_events_update. split.
    + intros [?|?]; [by left | right; by exists evs].
    + intros [?|(evs' & [= <-] & ?)]; [by left | by right].
  - split; [by left | intros [?|(evs' & [=] & _)]; done].
Qed.

Lemma aggregated_NoDup (w : World) : NoDup (aggregated w).
Proof.
  unfold aggregated. generalize (TARGET_YEARS w ++ ADDITIONAL_TARGET_YEARS w).
  assert (NoDup (@nil SmuCalendarEvent)) as Hnil by constructor.
  revert Hnil. generalize (@nil SmuCalendarEvent).
  intros s Hs years. revert s Hs.
  induction years as [|year years IH]; intros s Hs; simpl; [done|].
  apply IH. unfold crawled. destruct (get_events w year); [|done].
  by apply NoDup_events_update.
Qed.

Lemma fold_crawled_elem (w : World) (years : list Z) (s : EventSet)
    (e : SmuCalendarEvent) :
  e ∈ fold_left (crawled w) years s
  ↔ e ∈ s ∨ ∃ year evs, year ∈ years ∧ get_events w year = Ok evs ∧ e ∈ evs.
Proof.
  revert s. induction years as [|year years IH]; intros s; simpl.
  - split; [by left|]. intros [?|(y & evs & Hy & _)]; [done|].
    by apply elem_of_nil in Hy.
  - rewrite IH, crawled_elem. split.
    + intros [[?|(evs & ? & ?)]|(y & evs & ? & ? & ?)].
      * by left.
      * right. exists year, evs. split; [apply list_elem_of_here | done].
      * right. exists y, evs. split; [by apply list_elem_of_further | done].
    + intros [?|(y & evs & Hy & ? & ?)]; [by left; left|].
      apply elem_of_cons in Hy as [->|Hy].
      * left. right. by exists evs.
      * right. by exists y, evs.
Qed.

Lemma has_fields_record_of (e : SmuCalendarEvent) : has_fields (record_of e) e.
Proof.
  eexists. split; [reflexivity|]. unfold record_of. repeat split; reflexivity.
Qed.

(** A record whose dates do not parse is not converted. *)
Lemma to_ics_undated `{HTMLParser} (e : SmuCalendarEvent) :
  is_Ok (_strptime (etcChar6 e)) && is_Ok (_strptime (etcChar7 e)) = false →
  is_Ok (to_ics e) = false.
Proof.
  rewrite to_ics_run. intros Hdate.
  destruct (int_to_str (articleNo e)); simpl; [|reflexivity].
  destruct (_cleanhtml (articleText e)); simpl; [|reflexivity].
  destruct (_strptime (etcChar6 e)); simpl; [|reflexivity].
  destruct (_strptime (etcChar7 e)); simpl; [|reflexivity].
  discriminate Hdate.
Qed.

(** The line that reports a year as crawled is in the log of [fetch_events]
    when [get_events] returns for that year. *)
Lemma crawled_year_logged (w : World) (year : Z) (evs : EventSet) :
  year ∈ TARGET_YEARS w ++ ADDITIONAL_TARGET_YEARS w →
  get_events w year = Ok evs →
  (year ∈ TARGET_YEARS w
   ∧ mkLogRecord INFO ("✅ crawled " +:+ str year +:+ " events successfully.")
     ∈ fetch_log w)
  ∨ (year ∈ ADDITIONAL_TARGET_YEARS w
     ∧ mkLogRecord INFO
         ("✅ crawled " +:+ str year +:+ " events successfully. (additional)")
       ∈ fetch_log w).
Proof.
  intros Hyear Hget. unfold fetch_log. apply elem_of_app in Hyear as [Hy|Hy].
  - left. split; [exact Hy|]. apply elem_of_app. left.
    apply list_elem_of_bind. exists year. split; [|exact Hy].
    unfold target_records. rewrite Hget.
    apply list_elem_of_further, list_elem_of_here.
  - right. split; [exact Hy|]. apply elem_of_app. right.
    apply list_elem_of_bind. exists year. split; [|exact Hy].
    unfold additional_records. rewrite Hget.
    apply list_elem_of_further, list_elem_of_here.
Qed.

(** * The claims *)

(** C1 (as amended).  For every pair of events, putting both into the event
    set keeps one of them exactly when they agree on all thirteen fields.
    The article number is the hash, and the hash alone: two events with the
    same article number that differ in another field are both kept. *)
Theorem C1_kept_once_iff_all_fields_agree (e1 e2 : SmuCalendarEvent) :
  __hash__ e1 = articleNo e1
  ∧ length (events_update (events_of [e1]) (events_of [e2]))
    = (if bool_decide (e1 = e2) then 1 else 2)%nat
  ∧ ∀ e, e ∈ events_update (events_of [e1]) (events_of [e2]) ↔ e = e1 ∨ e = e2.
Proof.
  split; [reflexivity|]. split.
  - unfold events_update, events_of, set_update, set_of, set_add, set_contains.
    simpl. rewrite orb_false_r.
    case_bool_decide as E.
    + subst e2. rewrite Z.eqb_refl. simpl.
      by rewrite (proj2 (__eq___true e1 e1) eq_refl).
    + destruct (__eq__ e1 e2) eqn:Heq.
      * apply __eq___true in Heq. contradiction.
      * by rewrite andb_false_r.
  - intros e. rewrite elem_of_events_update, !elem_of_events_of.
    by rewrite !list_elem_of_singleton.
Qed.

(** C1, the claim as stated fails: articles 42 of 2023 and of 2024 carry the
    same article number and two titles, and the set holds both. *)
Lemma C1_same_article_number_kept_twice :
  articleNo enrolment = articleNo enrolment_retitled
  ∧ length (events_update (events_of [enrolment]) (events_of [enrolment_retitled]))
    = 2%nat
  ∧ (∃ events, (fetch_events world_retitled initial).1 = Ok events
               ∧ events ≡ₚ [enrolment; enrolment_retitled]).
Proof.
  split; [reflexivity|]. split; [vm_compute; reflexivity|].
  eexists. split; [vm_compute; reflexivity|]. reflexivity.
Qed.

(** C2.  When both date strings parse, [to_ics] yields the event whose begin
    is the parsed start and whose end is the maximum of the parsed start and
    the parsed end; it returns as soon as the other arguments are there
    (the article number can be written out, the parser takes the body, the
    time stamps are in the range of [datetime]).  The maximum is the later
    of the two days in the order of the calendar: the end of a converted
    event is never before its begin, and an end on or before the start
    gives a single day. *)
Theorem C2_end_is_max_of_start_and_end `{HTMLParser}
    (e : SmuCalendarEvent) (ds de : datetime.t) :
  _strptime (etcChar6 e) = Ok ds → _strptime (etcChar7 e) = Ok de →
  to_ics e =
    (uid ← int_to_str (articleNo e);
     description ← _cleanhtml (articleText e);
     created ← _msptime (createDt e);
     last_modified ← _msptime (updateDt e);
     Ok (ics.mkEvent (str (articleNo e)) (articleTitle e) description
           ds (datetime.max ds de) created last_modified (event_url e) true))
  ∧ datetime.max ds de = (if date_leb de ds then ds else de)
  ∧ date_leb ds (datetime.max ds de) = true
  ∧ date_leb de (datetime.max ds de) = true
  ∧ (∀ out, to_ics e = Ok out →
       ics.begin out = ds
       ∧ ics.end_ out = (if date_leb de ds then ds else de)
       ∧ date_leb (ics.begin out) (ics.end_ out) = true).
Proof.
  intros Hs He.
  destruct (max_of_dates _ _ ds de Hs He) as (Hmax & Hle_s & Hle_e).
  split; [by apply to_ics_parsed|].
  split; [exact Hmax|]. split; [exact Hle_s|]. split; [exact Hle_e|].
  intros out. rewrite (to_ics_parsed e ds de Hs He).
  destruct (int_to_str (articleNo e)); simpl; [|discriminate].
  destruct (_cleanhtml (articleText e)); simpl; [|discriminate].
  destruct (_msptime (createDt e)); simpl; [|discriminate].
  destruct (_msptime (updateDt e)); simpl; [|discriminate].
  intros [= <-]. simpl. split; [reflexivity|]. split; [exact Hmax | exact Hle_s].
Qed.

Lemma C2_inverted_and_regular_range :
  (λ out, (ics.begin out, ics.end_ out)) <$> to_ics (H:=text_parser) inverted
  = Ok (datetime.mk 2024 3 1 0 0 0 0, datetime.mk 2024 3 1 0 0 0 0)
  ∧ (λ out, (ics.begin out, ics.end_ out)) <$> to_ics (H:=text_parser) enrolment
    = Ok (datetime.mk 2024 3 1 0 0 0 0, datetime.mk 2024 3 5 0 0 0 0).
Proof.
  split.
  - destruct (C2_end_is_max_of_start_and_end (H:=text_parser) inverted
                (datetime.mk 2024 3 1 0 0 0 0) (datetime.mk 2024 2 28 0 0 0 0)
                ltac:(vm_compute; reflexivity) ltac:(vm_compute; reflexivity))
      as [Hto _].
    rewrite Hto. vm_compute. reflexivity.
  - destruct (C2_end_is_max_of_start_and_end (H:=text_parser) enrolment
                (datetime.mk 2024 3 1 0 0 0 0) (datetime.mk 2024 3 5 0 0 0 0)
                ltac:(vm_compute; reflexivity) ltac:(vm_compute; reflexivity))
      as [Hto _].
    rewrite Hto. vm_compute. reflexivity.
Defined.

(** C3.  When [get_events] raises for a year, whatever the exception, the
    body of either loop returns: it has logged the start and the failure
    (as an error in the first loop, as a warning in the second) and the set
    of events is the one it was given.  [fetch_events] as a whole returns,
    with the events of the years that did not fail. *)
Theorem C3_crawl_exception_is_caught (w : World) (year : Z) (x : exn)
    (events : EventSet) (st : State) :
  get_events w year = Raise x →
  crawl_target w events year st
  = (Ok events,
     mkState (records st
              ++ [mkLogRecord INFO ("🌀 start crawling " +:+ str year +:+ " events.");
                  mkLogRecord ERROR ("❌ failed to crawl " +:+ str year +:+ " events.")])
             (files st))
  ∧ crawl_additional w events year st
    = (Ok events,
       mkState (records st
                ++ [mkLogRecord INFO
                      ("start crawling " +:+ str year +:+ " events. (additional)");
                    mkLogRecord WARNING
                      ("⚠️ failed to crawl " +:+ str year +:+ " events. (additional)")])
               (files st))
  ∧ crawled w events year = events
  ∧ ∃ logs, fetch_events w st
            = (Ok (aggregated w), mkState (records st ++ logs) (files st)).
Proof.
  intros Hx. rewrite crawl_target_run, crawl_additional_run.
  unfold crawled. rewrite Hx. repeat split. apply fetch_events_run.
Qed.

Lemma C3_unreachable_year_is_skipped :
  crawl_target world_unreachable [enrolment] 2024 initial
  = (Ok [enrolment],
     mkState [mkLogRecord INFO "🌀 start crawling 2024 events.";
              mkLogRecord ERROR "❌ failed to crawl 2024 events."] ∅).
Proof.
  destruct (C3_crawl_exception_is_caught world_unreachable 2024 RequestException
              [enrolment] initial ltac:(vm_compute; reflexivity)) as [Ht _].
  rewrite Ht. vm_compute. reflexivity.
Defined.

(** C4 (as amended).  A date that does not parse is not met inside the loops
    over the years.  When the answer for a target year passes [_validate]
    and every element of its list holds the thirteen keys, [get_events]
    returns for that year whatever the date strings say: the record with
    the date that does not parse is an event of the year and of the
    aggregated set, and the year is logged as crawled.  The error is raised
    by [to_ics] (a [ValueError], when the parser takes the body), which
    [main] calls outside of any [try]: the run ends with the exception of a
    conversion, status 1, without the log line on writing and with the
    files as they were. *)
Theorem C4_date_error_ends_the_run `{HTMLParser} (w : World) (st : State)
    (year : Z) (o : gmap string json) (items : list json)
    (evs : list SmuCalendarEvent) (e : SmuCalendarEvent) :
  year ∈ TARGET_YEARS w ++ ADDITIONAL_TARGET_YEARS w →
  _fetch w year = Ok (JObj o) →
  o !! "success" = Some (JBool true) → o !! "list" = Some (JList items) →
  Forall2 has_fields items evs → e ∈ evs →
  is_Ok (_strptime (etcChar6 e)) && is_Ok (_strptime (etcChar7 e)) = false →
  get_events w year = Ok (events_of evs)
  ∧ e ∈ aggregated w
  ∧ ((year ∈ TARGET_YEARS w
      ∧ mkLogRecord INFO ("✅ crawled " +:+ str year +:+ " events successfully.")
        ∈ fetch_log w)
     ∨ (year ∈ ADDITIONAL_TARGET_YEARS w
        ∧ mkLogRecord INFO
            ("✅ crawled " +:+ str year +:+ " events successfully. (additional)")
          ∈ fetch_log w))
  ∧ (is_Ok (_cleanhtml (articleText e)) = true → to_ics e = Raise ValueError)
  ∧ ∃ x e',
      main w st = (Raise x, mkState (records st ++ fetch_log w) (files st))
      ∧ e' ∈ aggregated w ∧ to_ics e' = Raise x
      ∧ exit_status (main w st).1 = 1.
Proof.
  intros Hyear Hf Hs Hl HF Hin Hdate.
  assert (get_events w year = Ok (events_of evs)) as Hget.
  { unfold get_events, _get_events. rewrite Hf. simpl.
    rewrite (proj2 (_validate_Ok (JObj o))) by (by exists o, items). simpl.
    unfold _deserialize, getitem. rewrite Hl. simpl.
    rewrite (proj2 (mapR_Ok deserialize_item items evs)); [reflexivity|].
    eapply Forall2_impl; [exact HF|]. intros ??. apply deserialize_item_Ok. }
  assert (e ∈ aggregated w) as Hagg.
  { unfold aggregated. apply fold_crawled_elem. right.
    exists year, (events_of evs). split; [exact Hyear|]. split; [exact Hget|].
    by apply elem_of_events_of. }
  split; [exact Hget|]. split; [exact Hagg|].
  split; [by apply crawled_year_logged with (events_of evs)|].
  split; [intros Htext; by apply to_ics_unparsed|].
  assert (is_Ok (mapR to_ics (sorted __lt__ (iter_events w (aggregated w)))) = false)
    as Hfail.
  { apply mapR_elem_Raise with e.
    - by rewrite converted_Permutation.
    - by apply to_ics_undated. }
  pose proof (main_with_log w st) as Hmain. cbv zeta in Hmain.
  destruct (mapR to_ics (sorted __lt__ (iter_events w (aggregated w))))
    as [outs|x] eqn:Hmap; [discriminate Hfail|].
  apply mapR_Raise_elem in Hmap as (e' & Hin' & He').
  exists x, e'. split; [exact Hmain|].
  split; [by rewrite <- (converted_Permutation w)|].
  split; [exact He'|]. by rewrite Hmain.
Qed.

Lemma C4_misdated_record_ends_the_run :
  get_events world_misdated 2024 = Ok [misdated]
  ∧ misdated ∈ aggregated world_misdated
  ∧ (main (H:=text_parser) world_misdated initial).1 = Raise ValueError
  ∧ files (main (H:=text_parser) world_misdated initial).2 = ∅.
Proof.
  destruct (C4_date_error_ends_the_run (H:=text_parser) world_misdated initial 2024
              (list_to_map [("success", JBool true);
                            ("list", JList [record_of misdated])])
              [record_of misdated] [misdated] misdated
              ltac:(vm_compute; apply list_elem_of_further, list_elem_of_here)
              ltac:(vm_compute; reflexivity)
              ltac:(vm_compute; reflexivity) ltac:(vm_compute; reflexivity)
              ltac:(constructor; [apply has_fields_record_of | constructor])
              ltac:(apply list_elem_of_here)
              ltac:(vm_compute; reflexivity))
    as (Hget & Hagg & _ & _ & x & e' & Hmain & _).
  split; [exact Hget|]. split; [exact Hagg|].
  rewrite Hmain. simpl. split; [|reflexivity].
  vm_compute in Hmain. by inversion Hmain.
Defined.

(** C4, the claim as stated fails: year 2024 lists one record whose start
    date names month 13.  The year is logged as crawled, not as failed; the
    run ends with the [ValueError], status 1, and writes nothing. *)
Lemma C4_date_error_is_not_caught_per_year :
  get_events world_misdated 2024 = Ok [misdated]
  ∧ records (fetch_events world_misdated initial).2 !! 3%nat
    = Some (mkLogRecord INFO "✅ crawled 2024 events successfully.")
  ∧ (main (H:=text_parser) world_misdated initial).1 = Raise ValueError
  ∧ exit_status (main (H:=text_parser) world_misdated initial).1 = 1
  ∧ files (main (H:=text_parser) world_misdated initial).2 = ∅.
Proof. vm_compute. repeat split; reflexivity. Qed.

(** C6.  [_validate] returns exactly when the response is an object whose
    [success] is [true] and whose [list] is a list, empty or not; in every
    other case it raises: a [TypeError] when the response is no object, a
    [KeyError] when a key is missing, an [AssertionError] otherwise. *)
Theorem C6_validate_accepts_success_and_list (j : json) :
  (_validate j = Ok ()
   ↔ ∃ o l, j = JObj o ∧ o !! "success" = Some (JBool true)
            ∧ o !! "list" = Some (JList l))
  ∧ (_validate j = Ok ()
     ∨ ∃ e, _validate j = Raise e
            ∧ e ∈ [TypeError; KeyError "success"; AssertionError; KeyError "list"]).
Proof.
  split; [apply _validate_Ok|].
  destruct (_validate j) as [[]|e] eqn:E; [by left|].
  right. exists e. split; [reflexivity|]. exact (_validate_Raise j e E).
Qed.

Lemma deserialize_item_lacking (item : json) (key : string) :
  key ∈ field_keys → lacks item key → is_Ok (deserialize_item item) = false.
Proof.
  intros Hkey (o & -> & Hnone).
  destruct (deserialize_item (JObj o)) as [e|x] eqn:E; [|reflexivity].
  apply deserialize_item_Ok in E
    as (o' & [= <-] & H1 & H2 & H3 & H4 & H5 & H6 & H7 & H8 & H9 & H10 & H11 & H12 & H13).
  unfold field_keys in Hkey.
  repeat (apply elem_of_cons in Hkey as [-> | Hkey]; [congruence|]).
  by apply elem_of_nil in Hkey.
Qed.

(** C7.  A validated response has a list.  Running [_deserialize] on it
    returns exactly when every element is a record that holds the thirteen
    keys, and then it returns one event per element, in order, whose fields
    are the values under the keys of the same names.  An element without one
    of the keys makes it raise; when nothing before that element fails, the
    exception is the [KeyError] of the first key the element lacks.
    [get_events] is the set of what [_deserialize] returns. *)
Theorem C7_one_event_per_element (j : json) :
  _validate j = Ok () →
  ∃ items,
    getitem j "list" = Ok (JList items)
    ∧ _deserialize j = mapR deserialize_item items
    ∧ (∀ evs, _deserialize j = Ok evs ↔ Forall2 has_fields items evs)
    ∧ (∀ evs, _deserialize j = Ok evs → length evs = length items)
    ∧ (∀ item key, item ∈ items → key ∈ field_keys → lacks item key →
         is_Ok (_deserialize j) = false)
    ∧ (∀ good bad rest key,
         items = good ++ bad :: rest →
         Forall (λ item, ∃ e, has_fields item e) good →
         typed_item bad = true → key ∈ field_keys → lacks bad key →
         ∃ key', key' ∈ field_keys ∧ lacks bad key'
                 ∧ _deserialize j = Raise (KeyError key'))
    ∧ (∀ w year, _fetch w year = Ok j →
         get_events w year = events_of <$> mapR deserialize_item items).
Proof.
  intros Hv. pose proof Hv as Hv'.
  apply _validate_Ok in Hv' as (o & items & -> & Hs & Hl).
  exists items.
  assert (_deserialize (JObj o) = mapR deserialize_item items) as Hd.
  { unfold _deserialize, getitem. rewrite Hl. reflexivity. }
  split; [simpl; by rewrite Hl|]. split; [exact Hd|]. rewrite Hd.
  split.
  { intros evs. rewrite mapR_Ok. split; intros HF.
    - eapply Forall2_impl; [exact HF|]. intros ??. apply deserialize_item_Ok.
    - eapply Forall2_impl; [exact HF|]. intros ??. apply deserialize_item_Ok. }
  split; [intros evs; apply mapR_length|].
  split.
  { intros item key Hin Hkey Hlack. apply mapR_elem_Raise with item; [done|].
    by apply deserialize_item_lacking with key. }
  split.
  { intros good bad rest key -> Hgood Hbad Hkey Hlack.
    destruct (deserialize_item_lacks bad key Hbad Hkey Hlack) as (key' & ? & ? & Hraise).
    exists key'. split; [done|]. split; [done|].
    apply mapR_first_Raise; [|exact Hraise].
    eapply Forall_impl; [exact Hgood|]. intros item [e He].
    apply deserialize_item_Ok in He. by rewrite He. }
  intros w year Hf. unfold get_events, _get_events. rewrite Hf. simpl.
  rewrite Hv. simpl. by rewrite Hd.
Qed.

Lemma C7_two_records_two_events :
  _deserialize (response_of [record_of enrolment; record_of examinations])
  = Ok [enrolment; examinations].
Proof.
  destruct (C7_one_event_per_element
              (response_of [record_of enrolment; record_of examinations])
              ltac:(vm_compute; reflexivity))
    as (items & Hl & Hd & _).
  vm_compute in Hl. injection Hl as <-.
  rewrite Hd. vm_compute. reflexivity.
Defined.

(** C8.  When [get_events] fails for each of the six target years, and the
    directory and the file can be written, [main] returns (exit status 0)
    and the file holds the document of a calendar with the creator and no
    event. *)
Theorem C8_all_years_fail_empty_calendar `{HTMLParser} (w : World) (st : State) :
  (∀ year, year ∈ TARGET_YEARS w ++ ADDITIONAL_TARGET_YEARS w →
           is_Ok (get_events w year) = false) →
  (if os_path_exists w ICS_FILE_OUTPUT_DIR then Ok ()
   else os_makedirs w ICS_FILE_OUTPUT_DIR) = Ok () →
  open_write w ICS_FILE_OUTPUT_PATH = Ok () →
  writelines w ICS_FILE_OUTPUT_PATH = Ok () →
  ∃ st',
    main w st = (Ok (), st')
    ∧ exit_status (main w st).1 = 0
    ∧ files st' !! ICS_FILE_OUTPUT_PATH
      = Some (Document (ics.mkCalendar ICS_AUTHOR []))
    ∧ (∀ path, path ≠ ICS_FILE_OUTPUT_PATH → files st' !! path = files st !! path).
Proof.
  intros Hfail Hdir Hopen Hwrite.
  pose proof (main_with_log w st) as Hrun. cbv zeta in Hrun.
  assert (sorted __lt__ (iter_events w (aggregated w)) = []) as Hnone.
  { apply Permutation_nil_r. rewrite converted_Permutation.
    by rewrite (aggregated_nil w Hfail). }
  rewrite Hnone in Hrun. simpl in Hrun. rewrite Hdir, Hopen, Hwrite in Hrun.
  eexists. split; [exact Hrun|].
  rewrite Hrun. simpl. split; [reflexivity|].
  split; [apply lookup_insert_eq|].
  intros path Hne. by apply lookup_insert_ne.
Qed.

Lemma C8_unreachable_endpoint_empty_calendar :
  (main (H:=text_parser) world_unreachable initial).1 = Ok ()
  ∧ files (main (H:=text_parser) world_unreachable initial).2 !! ICS_FILE_OUTPUT_PATH
    = Some (Document (ics.mkCalendar ICS_AUTHOR [])).
Proof.
  destruct (C8_all_years_fail_empty_calendar (H:=text_parser) world_unreachable initial
              ltac:(intros year _; reflexivity)
              ltac:(reflexivity) ltac:(reflexivity) ltac:(reflexivity))
    as (st' & Hmain & _ & Hfile & _).
  rewrite Hmain. simpl. split; [reflexivity | exact Hfile].
Defined.

(** C9, at the failing input.  [_cleanhtml] feeds the parser and never closes
    it.  For the body ["Q&A"] the parser waits for more text, in case the
    ['&'] starts a character reference, and hands nothing to [handle_data]:
    the text is lost, whereas the claim has it returned. *)
Theorem C9_text_held_back_is_lost `{HTMLParser} :
  feed "Q&A" = Ok [] ∧ _cleanhtml "Q&A" = Ok "".
Proof.
  assert (feed "Q&A" = Ok []) as Hfeed by (apply feed_text; reflexivity).
  split; [exact Hfeed|]. unfold _cleanhtml. rewrite Hfeed. reflexivity.
Qed.

(** The empty body and a body of plain ASCII text come back as they are. *)
Lemma _cleanhtml_empty `{HTMLParser} : _cleanhtml "" = Ok "".
Proof.
  unfold _cleanhtml. rewrite (feed_text "" []) by reflexivity. reflexivity.
Qed.

Lemma _cleanhtml_plain_example `{HTMLParser} :
  _cleanhtml "Enrolment opens" = Ok "Enrolment opens".
Proof.
  unfold _cleanhtml.
  rewrite (feed_text "Enrolment opens" ["Enrolment opens"]) by reflexivity.
  reflexivity.
Qed.

(** C10.  Two events that agree on [boardNo], [articleNo], [articleTitle],
    [articleText], [createDt], [updateDt], [etcChar6] and [etcChar7] are
    converted alike, to the same event or to the same exception, whatever
    [orderDt], [etcChar4], [etcChar5], [etcChar8] and [etcChar9] hold. *)
Theorem C10_to_ics_reads_eight_fields `{HTMLParser} (e1 e2 : SmuCalendarEvent) :
  boardNo e1 = boardNo e2 → articleNo e1 = articleNo e2 →
  articleTitle e1 = articleTitle e2 → articleText e1 = articleText e2 →
  createDt e1 = createDt e2 → updateDt e1 = updateDt e2 →
  etcChar6 e1 = etcChar6 e2 → etcChar7 e1 = etcChar7 e2 →
  to_ics e1 = to_ics e2.
Proof.
  intros Hb Hn Ht Hx Hc Hu H6 H7.
  unfold to_ics. rewrite Hb, Hn, Ht, Hx, Hc, Hu, H6, H7. reflexivity.
Qed.

Lemma C10_five_fields_changed_same_event :
  inverted ≠ inverted_elsewhere
  ∧ to_ics (H:=text_parser) inverted = to_ics (H:=text_parser) inverted_elsewhere.
Proof.
  split; [discriminate|].
  exact (C10_to_ics_reads_eight_fields (H:=text_parser) inverted inverted_elsewhere
           eq_refl eq_refl eq_refl eq_refl eq_refl eq_refl eq_refl eq_refl).
Defined.

(** * Further properties of the code *)

(** ** Time stamps *)

Lemma of_milliseconds_run (ms : Z) :
  datetime.timedelta.of_milliseconds ms
  = (if 999999999 <? Z.abs (ms / 86400000) then Raise OverflowError
     else Ok (datetime.timedelta.mk (ms / 86400000)
                (ms mod 86400000 / 1000) (ms mod 1000 * 1000))).
Proof.
  unfold datetime.timedelta.of_milliseconds, datetime.timedelta.new.
  replace ((0 * 86400 + 0) * 1000000 + ms * 1000) with (ms * 1000) by lia.
  assert (ms * 1000 / 86400000000 = ms / 86400000) as -> by
    (Z.to_euclidean_division_equations; lia).
  assert (ms * 1000 mod 86400000000 / 1000000 = ms mod 86400000 / 1000) as -> by
    (Z.to_euclidean_division_equations; lia).
  assert (ms * 1000 mod 86400000000 mod 1000000 = ms mod 1000 * 1000) as -> by
    (Z.to_euclidean_division_equations; lia).
  reflexivity.
Qed.

Lemma timedelta_new_normal (d s us : Z) :
  0 <= s < 86400 → 0 <= us < 1000000 →
  datetime.timedelta.new d s us
  = (if 999999999 <? Z.abs d then Raise OverflowError
     else Ok (datetime.timedelta.mk d s us)).
Proof.
  intros Hs Hus. unfold datetime.timedelta.new.
  assert (((d * 86400 + s) * 1000000 + us) / 86400000000 = d) as -> by
    (Z.to_euclidean_division_equations; lia).
  assert (((d * 86400 + s) * 1000000 + us) mod 86400000000 / 1000000 = s) as -> by
    (Z.to_euclidean_division_equations; lia).
  assert (((d * 86400 + s) * 1000000 + us) mod 86400000000 mod 1000000 = us) as -> by
    (Z.to_euclidean_division_equations; lia).
  reflexivity.
Qed.

(** [_msptime], computed: the day is found [ms / 86400000] days after the
    ordinal of 1970-01-01, the time of day is the remainder. *)
Lemma _msptime_run (ms : Z) :
  _msptime ms
  = (if (MS_MIN <=? ms) && (ms <=? MS_MAX) then
       let '(y, m, d) := datetime._ord2ymd (719163 + ms / 86400000) in
       let s := ms mod 86400000 / 1000 in
       Ok (datetime.mk y m d (s / 3600) (s mod 3600 / 60) (s mod 3600 mod 60)
             (ms mod 1000 * 1000))
     else Raise OverflowError).
Proof.
  unfold _msptime. rewrite of_milliseconds_run.
  assert (0 <= ms mod 86400000 / 1000 < 86400) as Hs by
    (Z.to_euclidean_division_equations; lia).
  assert (0 <= ms mod 1000 * 1000 < 1000000) as Hus by
    (Z.to_euclidean_division_equations; lia).
  destruct (999999999 <? Z.abs (ms / 86400000)) eqn:Habs.
  - apply Z.ltb_lt in Habs.
    assert ((MS_MIN <=? ms) && (ms <=? MS_MAX) = false) as ->; [|reflexivity].
    apply andb_false_iff. unfold MS_MIN, MS_MAX.
    rewrite !Z.leb_gt. revert Habs. Z.to_euclidean_division_equations. lia.
  - apply Z.ltb_ge in Habs. unfold datetime.add, mbind, Result_bind.
    change (datetime.toordinal (datetime.mk 1970 1 1 0 0 0 0)) with 719163.
    cbn [datetime.hour datetime.minute datetime.second datetime.microsecond
         datetime.timedelta.days datetime.timedelta.seconds
         datetime.timedelta.microseconds].
    replace (0 * 3600 + 0 * 60 + 0 + ms mod 86400000 / 1000)
      with (ms mod 86400000 / 1000) by lia.
    replace (0 + ms mod 1000 * 1000) with (ms mod 1000 * 1000) by lia.
    rewrite timedelta_new_normal by assumption.
    destruct ((MS_MIN <=? ms) && (ms <=? MS_MAX)) eqn:Hrange.
    + apply andb_prop in Hrange as [Hlo Hhi].
      apply Z.leb_le in Hlo, Hhi. unfold MS_MIN, MS_MAX in *.
      assert (-719162 <= ms / 86400000 <= 2932896) as Hq by
        (Z.to_euclidean_division_equations; lia).
      assert ((999999999 <? Z.abs (719163 + ms / 86400000)) = false) as -> by lia.
      cbv beta iota zeta delta [datetime.timedelta.days datetime.timedelta.seconds
                                datetime.timedelta.microseconds].
      assert ((0 <? 719163 + ms / 86400000)
              && (719163 + ms / 86400000 <=? datetime._MAXORDINAL) = true) as ->.
      { unfold datetime._MAXORDINAL. apply andb_true_intro. split; lia. }
      reflexivity.
    + apply andb_false_iff in Hrange. unfold MS_MIN, MS_MAX in *.
      rewrite !Z.leb_gt in Hrange.
      destruct (999999999 <? Z.abs (719163 + ms / 86400000)); [reflexivity|].
      cbv beta iota zeta delta [datetime.timedelta.days datetime.timedelta.seconds
                                datetime.timedelta.microseconds].
      assert ((0 <? 719163 + ms / 86400000)
              && (719163 + ms / 86400000 <=? datetime._MAXORDINAL) = false) as ->;
        [|reflexivity].
      unfold datetime._MAXORDINAL. apply andb_false_iff. rewrite Z.ltb_ge, Z.leb_gt.
      revert Hrange. Z.to_euclidean_division_equations. lia.
Qed.

Lemma _msptime_is_Ok (ms : Z) :
  is_Ok (_msptime ms) = (MS_MIN <=? ms) && (ms <=? MS_MAX).
Proof.
  rewrite _msptime_run. destruct ((MS_MIN <=? ms) && (ms <=? MS_MAX)); [|reflexivity].
  by destruct (datetime._ord2ymd _) as [[y m] d].
Qed.

(** ** From ordinals to dates *)

Lemma month_day_ok_all (leapyear : bool) (n : Z) :
  0 <= n < (if leapyear then 366 else 365) → month_day_ok leapyear n = true.
Proof.
  intros Hn.
  assert (forallb (month_day_ok true) (seqZ 0 366) = true) as Ht
    by (vm_compute; reflexivity).
  assert (forallb (month_day_ok false) (seqZ 0 365) = true) as Hf
    by (vm_compute; reflexivity).
  rewrite forallb_forall in Ht, Hf.
  destruct leapyear.
  - apply Ht, list_elem_of_In, elem_of_seqZ. lia.
  - apply Hf, list_elem_of_In, elem_of_seqZ. lia.
Qed.

Lemma _is_leap_true (y : Z) :
  datetime._is_leap y = true ↔ y mod 4 = 0 ∧ (y mod 100 ≠ 0 ∨ y mod 400 = 0).
Proof.
  unfold datetime._is_leap.
  rewrite andb_true_iff, orb_true_iff, negb_true_iff, !Z.eqb_eq, Z.eqb_neq. tauto.
Qed.

(** Within a cycle of 400 years: the days before a year, and its leap day. *)
Lemma _days_before_year_cycle (q400 n100 n4 n1 : Z) :
  0 <= n100 <= 3 → 0 <= n4 <= 24 → 0 <= n1 <= 3 →
  datetime._days_before_year (q400 * 400 + 1 + n100 * 100 + n4 * 4 + n1)
  = 146097 * q400 + 36524 * n100 + 1461 * n4 + 365 * n1.
Proof.
  intros H100 H4 H1. unfold datetime._days_before_year. cbv zeta.
  Z.to_euclidean_division_equations. lia.
Qed.

Lemma _is_leap_cycle (q400 n100 n4 n1 : Z) :
  0 <= n100 <= 3 → 0 <= n4 <= 24 → 0 <= n1 <= 3 →
  datetime._is_leap (q400 * 400 + 1 + n100 * 100 + n4 * 4 + n1)
  = (n1 =? 3) && (negb (n4 =? 24) || (n100 =? 3)).
Proof.
  intros H100 H4 H1. apply eq_true_iff_eq.
  rewrite _is_leap_true, andb_true_iff, orb_true_iff, negb_true_iff, !Z.eqb_eq, Z.eqb_neq.
  Z.to_euclidean_division_equations. lia.
Qed.

(** [_ord2ymd] returns a date of the calendar, and [_ymd2ord] takes it back
    to the ordinal. *)
Lemma _ord2ymd_spec (n : Z) :
  1 <= n <= datetime._MAXORDINAL →
  ∃ y m d, datetime._ord2ymd n = (y, m, d)
    ∧ 1 <= y <= 9999 ∧ 1 <= m <= 12
    ∧ 1 <= d <= datetime._days_in_month y m
    ∧ datetime._ymd2ord y m d = n.
Proof.
  unfold datetime._MAXORDINAL. intros Hn.
  unfold datetime._ord2ymd, datetime._DI400Y, datetime._DI100Y, datetime._DI4Y.
  cbv zeta.
  pose proof (Z.div_mod (n - 1) 146097 ltac:(lia)) as E400.
  pose proof (Z.mod_pos_bound (n - 1) 146097 ltac:(lia)) as B400.
  set (q400 := (n - 1) / 146097) in *. set (r400 := (n - 1) mod 146097) in *.
  clearbody q400 r400.
  pose proof (Z.div_mod r400 36524 ltac:(lia)) as E100.
  pose proof (Z.mod_pos_bound r400 36524 ltac:(lia)) as B100.
  set (n100 := r400 / 36524) in *. set (r100 := r400 mod 36524) in *.
  clearbody n100 r100.
  pose proof (Z.div_mod r100 1461 ltac:(lia)) as E4.
  pose proof (Z.mod_pos_bound r100 1461 ltac:(lia)) as B4.
  set (n4 := r100 / 1461) in *. set (r4 := r100 mod 1461) in *.
  clearbody n4 r4.
  pose proof (Z.div_mod r4 365 ltac:(lia)) as E1.
  pose proof (Z.mod_pos_bound r4 365 ltac:(lia)) as B1.
  set (n1 := r4 / 365) in *. set (r1 := r4 mod 365) in *.
  clearbody n1 r1.
  assert (0 <= q400 <= 24) as Hq by lia.
  assert (0 <= n100 <= 4) as H100 by lia.
  assert (0 <= n4 <= 24) as H4 by lia.
  assert (0 <= n1 <= 4) as H1 by lia.
  destruct ((n1 =? 4) || (n100 =? 4)) eqn:Hlast.
  - (* the last day of a leap year *)
    apply orb_true_iff in Hlast. rewrite !Z.eqb_eq in Hlast.
    eexists _, _, _. split; [reflexivity|].
    set (y := q400 * 400 + 1 + n100 * 100 + n4 * 4 + n1 - 1).
    assert (datetime._is_leap y = true) as Hleap.
    { apply _is_leap_true. subst y. Z.to_euclidean_division_equations. lia. }
    assert (datetime._days_before_year y = n - 366) as Hdby.
    { unfold datetime._days_before_year. cbv zeta. subst y.
      Z.to_euclidean_division_equations. lia. }
    split; [subst y; lia|]. split; [lia|].
    unfold datetime._ymd2ord, datetime._days_in_month, datetime._days_before_month.
    rewrite Hleap, Hdby.
    change (datetime.index datetime._DAYS_IN_MONTH 12) with 31.
    change (datetime.index datetime._DAYS_BEFORE_MONTH 12) with 334.
    change ((12 =? 2) && true) with false. change ((2 <? 12) && true) with true.
    cbv iota. lia.
  - apply orb_false_iff in Hlast. rewrite !Z.eqb_neq in Hlast.
    assert (0 <= n100 <= 3) as H100' by lia. assert (0 <= n1 <= 3) as H1' by lia.
    set (leapyear := (n1 =? 3) && (negb (n4 =? 24) || (n100 =? 3))).
    set (y := q400 * 400 + 1 + n100 * 100 + n4 * 4 + n1).
    pose proof (_is_leap_cycle q400 n100 n4 n1 H100' H4 H1') as Hleap.
    pose proof (_days_before_year_cycle q400 n100 n4 n1 H100' H4 H1') as Hdby.
    fold y in Hleap, Hdby. fold leapyear in Hleap.
    pose proof (month_day_ok_all leapyear r1) as Hok.
    assert (0 <= r1 < (if leapyear then 366 else 365)) as Hr1
      by (destruct leapyear; lia).
    specialize (Hok Hr1). unfold month_day_ok in Hok.
    exists y, (month_day leapyear r1).1, (month_day leapyear r1).2.
    split.
    { unfold month_day. cbv zeta.
      destruct (r1 <? _); reflexivity. }
    destruct (month_day leapyear r1) as [m d]. cbv zeta in Hok. simpl.
    repeat (apply andb_prop in Hok as [Hok ?]).
    unfold datetime._ymd2ord, datetime._days_in_month, datetime._days_before_month.
    rewrite Hleap, Hdby.
    split; [subst y; lia|]. split; [lia|]. split; lia.
Qed.

(** What [_msptime] returns is a date-time of the calendar, and it lies [ms]
    milliseconds after 1970-01-01 00:00. *)
Lemma _msptime_Ok (ms : Z) (d : datetime.t) :
  _msptime ms = Ok d →
  MS_MIN <= ms <= MS_MAX
  ∧ 1 <= datetime.year d <= 9999 ∧ 1 <= datetime.month d <= 12
  ∧ 1 <= datetime.day d <= datetime._days_in_month (datetime.year d) (datetime.month d)
  ∧ 0 <= datetime.hour d < 24 ∧ 0 <= datetime.minute d < 60
  ∧ 0 <= datetime.second d < 60
  ∧ datetime.microsecond d = ms mod 1000 * 1000
  ∧ epoch_milliseconds d = ms.
Proof.
  rewrite _msptime_run.
  destruct ((MS_MIN <=? ms) && (ms <=? MS_MAX)) eqn:Hrange; [|discriminate].
  apply andb_prop in Hrange as [Hlo Hhi]. apply Z.leb_le in Hlo, Hhi.
  assert (1 <= 719163 + ms / 86400000 <= datetime._MAXORDINAL) as Hord.
  { unfold datetime._MAXORDINAL, MS_MIN, MS_MAX in *.
    Z.to_euclidean_division_equations. lia. }
  destruct (_ord2ymd_spec _ Hord) as (y & m & dd & -> & Hy & Hm & Hdd & Hback).
  cbv zeta. intros [= <-]. unfold epoch_milliseconds, datetime.toordinal.
  cbn [datetime.year datetime.month datetime.day datetime.hour datetime.minute
       datetime.second datetime.microsecond].
  rewrite Hback.
  split; [done|]. split; [done|]. split; [done|]. split; [done|].
  repeat split; try (Z.to_euclidean_division_equations; lia).
Qed.

(** ** Lists, strings and permutations *)

Lemma Forall2_elem_r {A B} (P : A → B → Prop) (l : list A) (k : list B) (y : B) :
  Forall2 P l k → y ∈ k → ∃ x, x ∈ l ∧ P x y.
Proof.
  induction 1 as [|x y' l k Hxy _ IH]; intros Hin.
  - by apply elem_of_nil in Hin.
  - apply elem_of_cons in Hin as [->|Hin].
    + exists x. split; [apply list_elem_of_here | done].
    + destruct (IH Hin) as (x' & ? & ?). exists x'.
      split; [by apply list_elem_of_further | done].
Qed.

Lemma Forall2_elem_l {A B} (P : A → B → Prop) (l : list A) (k : list B) (x : A) :
  Forall2 P l k → x ∈ l → ∃ y, y ∈ k ∧ P x y.
Proof.
  induction 1 as [|x' y l k Hxy _ IH]; intros Hin.
  - by apply elem_of_nil in Hin.
  - apply elem_of_cons in Hin as [->|Hin].
    + exists y. split; [apply list_elem_of_here | done].
    + destruct (IH Hin) as (y' & ? & ?). exists y'.
      split; [by apply list_elem_of_further | done].
Qed.

Lemma mapR_is_Ok {A B} (f : A → Result B) (l : list A) :
  is_Ok (mapR f l) = forallb (λ x, is_Ok (f x)) l.
Proof.
  induction l as [|x l IH]; simpl; [reflexivity|].
  destruct (f x); simpl; [|reflexivity].
  rewrite <- IH. by destruct (mapR f l).
Qed.

Lemma forallb_Permutation {A} (p : A → bool) (l k : list A) :
  l ≡ₚ k → forallb p l = forallb p k.
Proof.
  induction 1; simpl; try congruence.
  by rewrite !andb_assoc, (andb_comm (p y)).
Qed.

Lemma list_ascii_of_string_app (s1 s2 : string) :
  String.list_ascii_of_string (s1 +:+ s2)
  = String.list_ascii_of_string s1 ++ String.list_ascii_of_string s2.
Proof. induction s1 as [|c s1 IH]; simpl; [reflexivity|]. by rewrite IH. Qed.

Lemma list_ascii_of_string_inj (s1 s2 : string) :
  String.list_ascii_of_string s1 = String.list_ascii_of_string s2 → s1 = s2.
Proof.
  intros H. rewrite <- (String.string_of_list_ascii_of_string s1),
    <- (String.string_of_list_ascii_of_string s2). by rewrite H.
Qed.

Lemma string_app_inv_tail (s1 s2 s : string) : s1 +:+ s = s2 +:+ s → s1 = s2.
Proof.
  intros H. apply list_ascii_of_string_inj.
  apply (f_equal String.list_ascii_of_string) in H.
  rewrite !list_ascii_of_string_app in H. by apply app_inv_tail in H.
Qed.

(** ** The crawler, further *)

Lemma jsonStr_inj (y1 y2 : Z) : jsonStr y1 = jsonStr y2 → y1 = y2.
Proof.
  unfold jsonStr. intros H.
  do 6 apply (inj (String.append _)) in H.
  apply string_app_inv_tail in H. exact (pretty_Z_inj _ _ H).
Qed.

Lemma request_of_inj (y1 y2 : Z) : request_of y1 = request_of y2 → y1 = y2.
Proof.
  intros H. apply jsonStr_inj.
  change (jsonStr y1) with (nth 2 (req_data (request_of y1)) ("", "")).2.
  rewrite H. reflexivity.
Qed.

(** A typed record that cannot be read is no record at all, or it lacks a
    key. *)
Lemma deserialize_item_Raise (item : json) (x : exn) :
  typed_item item = true → deserialize_item item = Raise x →
  (x = TypeError ∧ ∀ o, item ≠ JObj o)
  ∨ ∃ key, key ∈ field_keys ∧ lacks item key ∧ x = KeyError key.
Proof.
  intros Htyped. destruct item as [| | | | |o];
    try (intros [= <-]; left; split; [reflexivity | discriminate]).
  intros Hraise. right.
  unfold typed_item in Htyped. apply andb_prop in Htyped as [Hs Hi].
  revert Hraise. unfold deserialize_item.
  repeat match goal with
  | |- context [item_str (JObj o) ?k ≫= _] =>
      let Hr := fresh "Hr" in let Hp := fresh "Hp" in
      destruct (item_str_cases o k Hs ltac:(key_in_list)) as [(? & Hp & Hr)|(Hp & Hr)];
      rewrite Hr; cbn [mbind Result_bind];
      [|intros [= <-]; exists k; split; [key_in_list|];
        split; [by exists o | reflexivity]]
  | |- context [item_int (JObj o) ?k ≫= _] =>
      let Hr := fresh "Hr" in let Hp := fresh "Hp" in
      destruct (item_int_cases o k Hi ltac:(key_in_list)) as [(? & Hp & Hr)|(Hp & Hr)];
      rewrite Hr; cbn [mbind Result_bind];
      [|intros [= <-]; exists k; split; [key_in_list|];
        split; [by exists o | reflexivity]]
  end.
  discriminate.
Qed.

Lemma has_fields_functional (item : json) (e1 e2 : SmuCalendarEvent) :
  has_fields item e1 → has_fields item e2 → e1 = e2.
Proof. intros H1 H2. apply deserialize_item_Ok in H1, H2. congruence. Qed.

Lemma events_of_length (l : list SmuCalendarEvent) :
  (length (events_of l) ≤ length l)%nat.
Proof.
  apply submseteq_length, NoDup_submseteq; [apply NoDup_events_of|].
  intros x. by rewrite elem_of_events_of.
Qed.

Lemma world_items_typed (w : World) (year : Z) (o : gmap string json)
    (items : list json) :
  _fetch w year = Ok (JObj o) → o !! "list" = Some (JList items) →
  Forall (λ item, typed_item item = true) items.
Proof.
  intros Hf Hl. apply (post_typed w) in Hf. unfold typed_response in Hf.
  rewrite Hl in Hf. apply Forall_forall. intros item Hin.
  rewrite forallb_forall in Hf. apply Hf. by apply list_elem_of_In.
Qed.

(** X1.  [deserialize_item] reads the thirteen keys and nothing else: two
    records that agree under these keys give the same event, or the same
    exception, whatever other keys they hold. *)
Theorem X1_deserialize_reads_thirteen_keys (o1 o2 : gmap string json) :
  (∀ k, k ∈ field_keys → o1 !! k = o2 !! k) →
  deserialize_item (JObj o1) = deserialize_item (JObj o2).
Proof.
  intros H. unfold deserialize_item, item_str, item_int, getitem.
  rewrite (H "boardNo"), (H "articleNo"), (H "articleTitle"), (H "articleText"),
    (H "createDt"), (H "orderDt"), (H "updateDt"), (H "etcChar4"), (H "etcChar5"),
    (H "etcChar6"), (H "etcChar7"), (H "etcChar8"), (H "etcChar9")
    by key_in_list.
  reflexivity.
Qed.

Lemma X1_one_more_key_same_event :
  deserialize_item (with_key "fileList" (JList []) (record_of enrolment))
  = deserialize_item (record_of enrolment).
Proof.
  unfold with_key, record_of.
  apply X1_deserialize_reads_thirteen_keys.
  intros k Hk. apply lookup_insert_ne. intros <-.
  unfold field_keys in Hk.
  repeat (apply elem_of_cons in Hk as [Hk|Hk]; [discriminate Hk|]).
  by apply elem_of_nil in Hk.
Defined.

(** X2.  When [get_events] returns, the response was an object with
    [success] true and a list, and the set returned holds exactly the events
    read from the elements of the list, none of them twice: equal records
    of one response are one event. *)
Theorem X2_get_events_is_the_set_of_the_records (w : World) (year : Z)
    (evs : EventSet) :
  get_events w year = Ok evs →
  NoDup evs
  ∧ ∃ o items,
      _fetch w year = Ok (JObj o)
      ∧ o !! "success" = Some (JBool true)
      ∧ o !! "list" = Some (JList items)
      ∧ (∀ e, e ∈ evs ↔ ∃ item, item ∈ items ∧ has_fields item e)
      ∧ (∀ item, item ∈ items → ∃ e, has_fields item e ∧ e ∈ evs)
      ∧ (length evs ≤ length items)%nat.
Proof.
  unfold get_events, _get_events.
  destruct (_fetch w year) as [j|x] eqn:Hf; simpl; [|discriminate].
  destruct (_validate j) as [[]|x] eqn:Hv; simpl; [|discriminate].
  destruct (_deserialize j) as [l|x] eqn:Hd; simpl; [|discriminate].
  intros [= <-]. split; [apply NoDup_events_of|].
  apply _validate_Ok in Hv as (o & items & -> & Hs & Hl).
  exists o, items. split; [reflexivity|]. split; [exact Hs|]. split; [exact Hl|].
  assert (Forall2 has_fields items l) as HF.
  { unfold _deserialize, getitem in Hd. rewrite Hl in Hd. simpl in Hd.
    apply mapR_Ok in Hd. eapply Forall2_impl; [exact Hd|].
    intros ??. apply deserialize_item_Ok. }
  split.
  { intros e. rewrite elem_of_events_of. split.
    - intros Hin. by apply (Forall2_elem_r _ _ _ _ HF).
    - intros (item & Hin & He).
      destruct (Forall2_elem_l _ _ _ _ HF Hin) as (e' & Hin' & He').
      by rewrite (has_fields_functional item e e' He He'). }
  split.
  { intros item Hin. destruct (Forall2_elem_l _ _ _ _ HF Hin) as (e & Hin' & He).
    exists e. split; [done|]. by apply elem_of_events_of. }
  rewrite (Forall2_length _ _ _ HF). apply events_of_length.
Qed.

Lemma X2_year_2024_of_the_regular_world :
  NoDup [enrolment; examinations]
  ∧ ∃ o items,
      _fetch world_regular 2024 = Ok (JObj o)
      ∧ o !! "success" = Some (JBool true)
      ∧ o !! "list" = Some (JList items)
      ∧ (∀ e, e ∈ [enrolment; examinations]
              ↔ ∃ item, item ∈ items ∧ has_fields item e)
      ∧ (∀ item, item ∈ items
                 → ∃ e, has_fields item e ∧ e ∈ [enrolment; examinations])
      ∧ (length [enrolment; examinations] ≤ length items)%nat.
Proof.
  exact (X2_get_events_is_the_set_of_the_records world_regular 2024
           [enrolment; examinations] ltac:(vm_compute; reflexivity)).
Defined.

(** X3.  The dataclass checks nothing, so this is said of an endpoint that
    answers with strings and integers where the dataclass annotates them,
    which is the standing assumption [post_typed] of a [World] (a record
    with a string for its article number would get as far as the hash of
    the set).  For such an endpoint, an exception of [get_events] is the
    one of the request, passed on as it is; or the one of [_validate]
    ([TypeError], [KeyError] of [success] or [list], [AssertionError]); or
    it comes from an element of the list: a [TypeError] for an element that
    is no record, the [KeyError] of a key the element lacks. *)
Theorem X3_get_events_exceptions (w : World) (year : Z) (x : exn) :
  get_events w year = Raise x →
  _fetch w year = Raise x
  ∨ (∃ j, _fetch w year = Ok j ∧ _validate j = Raise x
          ∧ x ∈ [TypeError; KeyError "success"; AssertionError; KeyError "list"])
  ∨ (∃ o items item,
       _fetch w year = Ok (JObj o) ∧ _validate (JObj o) = Ok ()
       ∧ o !! "list" = Some (JList items)
       ∧ Forall (λ item, typed_item item = true) items
       ∧ item ∈ items
       ∧ ((x = TypeError ∧ ∀ o', item ≠ JObj o')
          ∨ ∃ key, key ∈ field_keys ∧ lacks item key ∧ x = KeyError key)).
Proof.
  unfold get_events, _get_events.
  destruct (_fetch w year) as [j|x'] eqn:Hf; simpl; [|intros [= <-]; by left].
  destruct (_validate j) as [[]|x'] eqn:Hv; simpl.
  2: { intros [= <-]. right. left. exists j. split; [done|]. split; [done|].
       by apply _validate_Raise with j. }
  destruct (_deserialize j) as [l|x'] eqn:Hd; simpl; [discriminate|].
  intros [= <-]. right. right.
  pose proof Hv as Hv'. apply _validate_Ok in Hv' as (o & items & -> & Hs & Hl).
  unfold _deserialize, getitem in Hd. rewrite Hl in Hd. simpl in Hd.
  apply mapR_Raise_elem in Hd as (item & Hin & Hraise).
  pose proof (world_items_typed w year o items Hf Hl) as Ht.
  exists o, items, item.
  split; [done|]. split; [done|]. split; [done|]. split; [done|]. split; [done|].
  apply deserialize_item_Raise; [|done].
  rewrite Forall_forall in Ht. by apply Ht.
Qed.

Lemma X3_refused_year :
  _fetch world_misdated 2023 = Raise AssertionError
  ∨ (∃ j, _fetch world_misdated 2023 = Ok j ∧ _validate j = Raise AssertionError
          ∧ AssertionError
            ∈ [TypeError; KeyError "success"; AssertionError; KeyError "list"])
  ∨ (∃ o items item,
       _fetch world_misdated 2023 = Ok (JObj o) ∧ _validate (JObj o) = Ok ()
       ∧ o !! "list" = Some (JList items)
       ∧ Forall (λ item, typed_item item = true) items
       ∧ item ∈ items
       ∧ ((AssertionError = TypeError ∧ ∀ o', item ≠ JObj o')
          ∨ ∃ key, key ∈ field_keys ∧ lacks item key
                   ∧ AssertionError = KeyError key)).
Proof.
  exact (X3_get_events_exceptions world_misdated 2023 AssertionError
           ltac:(vm_compute; reflexivity)).
Defined.

(** X4.  The years crawled are the six years from three before the current
    year to two after it, and the six requests posted for them differ from
    one another. *)
Theorem X4_six_years_six_requests (w : World) :
  NoDup (request_of <$> (TARGET_YEARS w ++ ADDITIONAL_TARGET_YEARS w))
  ∧ length (TARGET_YEARS w ++ ADDITIONAL_TARGET_YEARS w) = 6%nat
  ∧ ∀ year, year ∈ TARGET_YEARS w ++ ADDITIONAL_TARGET_YEARS w
            ↔ CURRENT_YEAR w - 3 <= year <= CURRENT_YEAR w + 2.
Proof.
  split.
  - apply NoDup_fmap_2_strong.
    + intros y1 y2 _ _. apply request_of_inj.
    + unfold TARGET_YEARS, ADDITIONAL_TARGET_YEARS. simpl.
      repeat (apply NoDup_cons; split;
              [rewrite ?elem_of_cons, elem_of_nil; lia|]).
      constructor.
  - split; [reflexivity|].
    intros year. unfold TARGET_YEARS, ADDITIONAL_TARGET_YEARS. simpl.
    rewrite !elem_of_cons, elem_of_nil. lia.
Qed.

(** ** The orchestrator, further *)

(** Two lists in strictly ascending order with the same elements are the
    same list. *)
Lemma strict_sorted_unique (l1 l2 : list SmuCalendarEvent) :
  StronglySorted (λ a b, articleNo a < articleNo b) l1 →
  StronglySorted (λ a b, articleNo a < articleNo b) l2 →
  l1 ≡ₚ l2 → l1 = l2.
Proof.
  intros H1. revert l2. induction H1 as [|x l1 Hl1 IH Hx]; intros l2 H2 Hp.
  - by apply Permutation_nil_l in Hp.
  - destruct H2 as [|y l2 Hl2 Hy].
    + by apply Permutation_nil_r in Hp.
    + assert (x = y) as ->.
      { assert (x ∈ y :: l2) as Hxin by (rewrite <- Hp; apply list_elem_of_here).
        assert (y ∈ x :: l1) as Hyin by (rewrite Hp; apply list_elem_of_here).
        apply elem_of_cons in Hxin as [?|Hxin]; [done|].
        apply elem_of_cons in Hyin as [?|Hyin]; [done|].
        rewrite Forall_forall in Hx, Hy.
        specialize (Hx y Hyin). specialize (Hy x Hxin). lia. }
      f_equal. apply IH; [done|]. by apply Permutation_cons_inv in Hp.
Qed.

(** X5.  [fetch_events] logs twelve records and touches no file: for each
    year of the first loop and then for each year of the second, in the
    order of the lists, the start line and then the line of success or of
    failure.  A failure is an ERROR in the first loop and a WARNING in the
    second; every other record is an INFO. *)
Theorem X5_fetch_events_log (w : World) (st : State) :
  fetch_events w st
  = (Ok (aggregated w), mkState (records st ++ fetch_log w) (files st))
  ∧ length (fetch_log w) = 12%nat
  ∧ Forall (λ r, levelname r = INFO ∨ levelname r = ERROR)
      (TARGET_YEARS w ≫= target_records w)
  ∧ Forall (λ r, levelname r = INFO ∨ levelname r = WARNING)
      (ADDITIONAL_TARGET_YEARS w ≫= additional_records w).
Proof.
  split; [apply fetch_events_log|]. split; [reflexivity|].
  split.
  - unfold TARGET_YEARS, target_records. simpl.
    repeat (constructor; [first [by left | destruct (get_events w _); by auto]|]).
    constructor.
  - unfold ADDITIONAL_TARGET_YEARS, additional_records. simpl.
    repeat (constructor; [first [by left | destruct (get_events w _); by auto]|]).
    constructor.
Qed.

(** X6.  The set [fetch_events] returns holds exactly the events of the
    years, of either loop, whose crawl returned, and none of them twice:
    an event two years list alike is there once. *)
Theorem X6_fetch_events_is_the_union (w : World) (st st' : State)
    (events : EventSet) :
  fetch_events w st = (Ok events, st') →
  NoDup events
  ∧ ∀ e, e ∈ events
         ↔ ∃ year evs, year ∈ TARGET_YEARS w ++ ADDITIONAL_TARGET_YEARS w
                       ∧ get_events w year = Ok evs ∧ e ∈ evs.
Proof.
  rewrite fetch_events_log. intros [= <- _]. split; [apply aggregated_NoDup|].
  intros e. unfold aggregated. rewrite fold_crawled_elem, elem_of_nil. tauto.
Qed.

Lemma X6_regular_world_three_events :
  NoDup [inverted; enrolment; examinations]
  ∧ ∀ e, e ∈ [inverted; enrolment; examinations]
         ↔ ∃ year evs,
             year ∈ TARGET_YEARS world_regular ++ ADDITIONAL_TARGET_YEARS world_regular
             ∧ get_events world_regular year = Ok evs ∧ e ∈ evs.
Proof.
  exact (X6_fetch_events_is_the_union world_regular initial
           (fetch_events world_regular initial).2
           [inverted; enrolment; examinations] ltac:(vm_compute; reflexivity)).
Defined.

(** What [set_update] does to the carrier of the set. *)
Lemma events_update_app (s other : EventSet) :
  ∃ new, events_update s other = s ++ new
         ∧ NoDup new
         ∧ ∀ e, e ∈ new ↔ e ∈ other ∧ e ∉ s.
Proof.
  unfold events_update, set_update. revert s.
  induction other as [|x other IH]; intros s; simpl.
  - exists []. rewrite app_nil_r. split; [done|]. split; [constructor|].
    intros e. rewrite !elem_of_nil. tauto.
  - unfold set_add at 2. destruct (set_contains __hash__ __eq__ s x) eqn:E.
    + apply set_contains_elem in E. destruct (IH s) as (new & -> & Hnd & Hin).
      exists new. split; [done|]. split; [done|].
      intros e. rewrite Hin, elem_of_cons. split; [tauto|].
      intros [[->|?] ?]; [done | tauto].
    + assert (x ∉ s) as Hx.
      { intros Hin. apply set_contains_elem in Hin. congruence. }
      destruct (IH (s ++ [x])) as (new & -> & Hnd & Hin).
      exists (x :: new). split; [by rewrite <- app_assoc|]. split.
      * apply NoDup_cons. split; [|done].
        rewrite Hin, elem_of_app, list_elem_of_singleton. tauto.
      * intros e. rewrite !elem_of_cons, Hin, elem_of_app, list_elem_of_singleton.
        split.
        -- intros [->|[? ?]]; [tauto|]. split; tauto.
        -- intros [[->|?] ?]; [tauto|].
           destruct (decide (e = x)) as [->|?]; [tauto|]. right. tauto.
Qed.

(** X7.  [events.update] never drops an entry and never stores an event
    twice: the set it leaves holds the events it held and those of the
    other set, and it has grown by the number of events of the other set
    that it did not hold.  (Nothing is said of the order in which the set
    is iterated afterwards.) *)
Theorem X7_update_keeps_the_entries (s other : EventSet) :
  (∀ e, e ∈ events_update s other ↔ e ∈ s ∨ e ∈ other)
  ∧ (NoDup s → NoDup (events_update s other))
  ∧ (NoDup other →
     length (events_update s other)
     = (length s + length (filter (λ e, e ∉ s) other))%nat).
Proof.
  split; [intros e; apply elem_of_events_update|].
  split; [apply NoDup_events_update|].
  intros Hnd. destruct (events_update_app s other) as (new & -> & Hnew & Hin).
  rewrite length_app. f_equal. apply Permutation_length.
  apply NoDup_Permutation; [done | by apply NoDup_filter|].
  intros e. rewrite Hin, list_elem_of_filter. tauto.
Qed.

(** X8.  When the article numbers of the events differ from one another,
    [sorted] returns the same list in whatever order it is given the
    events: the order in which the set lists them does not show. *)
Theorem X8_sorted_whatever_the_order (l1 l2 : list SmuCalendarEvent) :
  l1 ≡ₚ l2 → NoDup (articleNo <$> l1) → sorted __lt__ l1 = sorted __lt__ l2.
Proof.
  intros Hp Hnd. apply strict_sorted_unique.
  - apply StronglySorted_strict; [apply sorted_StronglySorted|].
    by rewrite sorted_Permutation.
  - apply StronglySorted_strict; [apply sorted_StronglySorted|].
    by rewrite sorted_Permutation, <- Hp.
  - by rewrite !sorted_Permutation.
Qed.

Lemma X8_two_listings_one_order :
  sorted __lt__ listed = sorted __lt__ listed_otherwise.
Proof.
  apply X8_sorted_whatever_the_order.
  - symmetry. apply (Permutation_cons_append [inverted; enrolment] examinations).
  - apply (bool_decide_unpack _). vm_compute. exact I.
Defined.

(** X9.  [main] returns exactly when every aggregated event can be
    converted, the directory is there or can be made, the file can be
    opened and the document can be written. *)
Theorem X9_main_returns_iff `{HTMLParser} (w : World) (st : State) :
  is_Ok (main w st).1
  = forallb (λ e, is_Ok (to_ics e)) (aggregated w)
    && (os_path_exists w ICS_FILE_OUTPUT_DIR
        || is_Ok (os_makedirs w ICS_FILE_OUTPUT_DIR))
    && is_Ok (open_write w ICS_FILE_OUTPUT_PATH)
    && is_Ok (writelines w ICS_FILE_OUTPUT_PATH).
Proof.
  rewrite main_with_log. cbv zeta.
  rewrite <- (forallb_Permutation _ _ _ (converted_Permutation w)).
  rewrite <- mapR_is_Ok.
  destruct (mapR to_ics (sorted __lt__ (iter_events w (aggregated w)))); simpl;
    [|reflexivity].
  destruct (os_path_exists w ICS_FILE_OUTPUT_DIR); simpl.
  - destruct (open_write w ICS_FILE_OUTPUT_PATH); simpl; [|reflexivity].
    by destruct (writelines w ICS_FILE_OUTPUT_PATH).
  - destruct (os_makedirs w ICS_FILE_OUTPUT_DIR); simpl; [|reflexivity].
    destruct (open_write w ICS_FILE_OUTPUT_PATH); simpl; [|reflexivity].
    by destruct (writelines w ICS_FILE_OUTPUT_PATH).
Qed.

(** X10.  When [main] raises, the exception is the one of a conversion
    (the first that fails, in sorted order), or the one of [os.makedirs]
    (called because the directory was missing), or the one of [open], and
    then no file has been touched; or else it is raised while the document
    is written, after [open] has emptied the output file, which then holds
    a part of the document at most. *)
Theorem X10_main_raises `{HTMLParser} (w : World) (st st' : State) (x : exn) :
  main w st = (Raise x, st') →
  (files st' = files st
   ∧ ((∃ e, e ∈ aggregated w ∧ to_ics e = Raise x)
      ∨ (os_path_exists w ICS_FILE_OUTPUT_DIR = false
         ∧ os_makedirs w ICS_FILE_OUTPUT_DIR = Raise x)
      ∨ open_write w ICS_FILE_OUTPUT_PATH = Raise x))
  ∨ (writelines w ICS_FILE_OUTPUT_PATH = Raise x
     ∧ ∃ outs,
         mapR to_ics (sorted __lt__ (iter_events w (aggregated w))) = Ok outs
         ∧ files st'
           = <[ICS_FILE_OUTPUT_PATH := Partial (ics.mkCalendar ICS_AUTHOR outs)]>
               (files st)).
Proof.
  rewrite main_with_log. cbv zeta.
  destruct (mapR to_ics (sorted __lt__ (iter_events w (aggregated w))))
    as [outs|e] eqn:Hmap.
  - destruct (os_path_exists w ICS_FILE_OUTPUT_DIR) eqn:Hex.
    + destruct (open_write w ICS_FILE_OUTPUT_PATH) eqn:Ho.
      * destruct (writelines w ICS_FILE_OUTPUT_PATH) eqn:Hw; [discriminate|].
        intros [= <- <-]. right. split; [reflexivity|]. by exists outs.
      * intros [= <- <-]. left. split; [reflexivity|]. auto.
    + destruct (os_makedirs w ICS_FILE_OUTPUT_DIR) eqn:Hm.
      * destruct (open_write w ICS_FILE_OUTPUT_PATH) eqn:Ho.
        -- destruct (writelines w ICS_FILE_OUTPUT_PATH) eqn:Hw; [discriminate|].
           intros [= <- <-]. right. split; [reflexivity|]. by exists outs.
        -- intros [= <- <-]. left. split; [reflexivity|]. auto.
      * intros [= <- <-]. left. split; [reflexivity|]. auto.
  - intros [= <- <-]. left. split; [reflexivity|]. left.
    apply mapR_Raise_elem in Hmap as (e' & Hin & He').
    exists e'. split; [|exact He']. by rewrite <- (converted_Permutation w).
Qed.

Lemma X10_a_date_and_a_full_disk :
  ((files (main (H:=text_parser) world_misdated initial).2 = files initial
    ∧ ((∃ e, e ∈ aggregated world_misdated
             ∧ to_ics (H:=text_parser) e = Raise ValueError)
       ∨ (os_path_exists world_misdated ICS_FILE_OUTPUT_DIR = false
          ∧ os_makedirs world_misdated ICS_FILE_OUTPUT_DIR = Raise ValueError)
       ∨ open_write world_misdated ICS_FILE_OUTPUT_PATH = Raise ValueError))
   ∨ (writelines world_misdated ICS_FILE_OUTPUT_PATH = Raise ValueError
      ∧ ∃ outs,
          mapR (to_ics (H:=text_parser))
            (sorted __lt__ (iter_events world_misdated (aggregated world_misdated)))
          = Ok outs
          ∧ files (main (H:=text_parser) world_misdated initial).2
            = <[ICS_FILE_OUTPUT_PATH := Partial (ics.mkCalendar ICS_AUTHOR outs)]>
                (files initial)))
  ∧ ((files (main (H:=text_parser) world_disk_full initial).2 = files initial
      ∧ ((∃ e, e ∈ aggregated world_disk_full
               ∧ to_ics (H:=text_parser) e = Raise OSError)
         ∨ (os_path_exists world_disk_full ICS_FILE_OUTPUT_DIR = false
            ∧ os_makedirs world_disk_full ICS_FILE_OUTPUT_DIR = Raise OSError)
         ∨ open_write world_disk_full ICS_FILE_OUTPUT_PATH = Raise OSError))
     ∨ (writelines world_disk_full ICS_FILE_OUTPUT_PATH = Raise OSError
        ∧ ∃ outs,
            mapR (to_ics (H:=text_parser))
              (sorted __lt__ (iter_events world_disk_full (aggregated world_disk_full)))
            = Ok outs
            ∧ files (main (H:=text_parser) world_disk_full initial).2
              = <[ICS_FILE_OUTPUT_PATH := Partial (ics.mkCalendar ICS_AUTHOR outs)]>
                  (files initial))).
Proof.
  split.
  - exact (X10_main_raises (H:=text_parser) world_misdated initial
             (main (H:=text_parser) world_misdated initial).2 ValueError
             ltac:(vm_compute; reflexivity)).
  - exact (X10_main_raises (H:=text_parser) world_disk_full initial
             (main (H:=text_parser) world_disk_full initial).2 OSError
             ltac:(vm_compute; reflexivity)).
Defined.

(** X11.  [main] leaves every file other than the output file as it was. *)
Theorem X11_main_touches_one_file `{HTMLParser} (w : World) (st : State)
    (path : string) :
  path ≠ ICS_FILE_OUTPUT_PATH →
  files (main w st).2 !! path = files st !! path.
Proof.
  intros Hne. rewrite main_with_log. cbv zeta.
  destruct (mapR to_ics (sorted __lt__ (iter_events w (aggregated w))));
    [|reflexivity].
  destruct (if os_path_exists w ICS_FILE_OUTPUT_DIR then _ else _); [|reflexivity].
  destruct (open_write w ICS_FILE_OUTPUT_PATH); [|reflexivity].
  destruct (writelines w ICS_FILE_OUTPUT_PATH); simpl; by apply lookup_insert_ne.
Qed.

Lemma X11_another_file_is_left_alone :
  files (main (H:=text_parser) world_regular initial).2 !! "docs/index.html"
  = files initial !! "docs/index.html".
Proof.
  apply (X11_main_touches_one_file (H:=text_parser) world_regular initial).
  discriminate.
Defined.

(** X12.  When the directory of the output file exists, [os.makedirs] is
    not called: [main] does the same whatever [os.makedirs] would do. *)
Theorem X12_makedirs_only_when_missing `{HTMLParser} (w : World) (st : State)
    (makedirs : string → Result unit) :
  os_path_exists w ICS_FILE_OUTPUT_DIR = true →
  main (with_makedirs w makedirs) st = main w st.
Proof.
  intros Hex. rewrite !main_with_log. cbv zeta.
  change (os_path_exists (with_makedirs w makedirs)) with (os_path_exists w).
  rewrite Hex. reflexivity.
Qed.

Lemma X12_directory_there :
  main (H:=text_parser) (with_makedirs world_with_directory (λ _, Ok ())) initial
  = main (H:=text_parser) world_with_directory initial.
Proof.
  exact (X12_makedirs_only_when_missing (H:=text_parser) world_with_directory initial
           (λ _, Ok ()) eq_refl).
Defined.

(** ** The event, further *)

(** X13.  [_msptime] accepts the time stamps from [MS_MIN] to [MS_MAX], the
    first and the last millisecond of the years 1 to 9999, and raises an
    [OverflowError] for every other one. *)
Theorem X13_msptime_range (ms : Z) :
  (MS_MIN <= ms <= MS_MAX ∧ ∃ d, _msptime ms = Ok d)
  ∨ ((ms < MS_MIN ∨ MS_MAX < ms) ∧ _msptime ms = Raise OverflowError).
Proof.
  rewrite _msptime_run.
  destruct ((MS_MIN <=? ms) && (ms <=? MS_MAX)) eqn:Hrange.
  - left. apply andb_prop in Hrange as [Hlo Hhi]. apply Z.leb_le in Hlo, Hhi.
    split; [done|]. destruct (datetime._ord2ymd _) as [[y m] d]. eauto.
  - right. apply andb_false_iff in Hrange. rewrite !Z.leb_gt in Hrange.
    split; [tauto | reflexivity].
Qed.

(** X14.  What [_msptime] returns is a date-time of the calendar (a day that
    exists, an hour below 24, minutes and seconds below 60, whole
    milliseconds), and it lies exactly [ms] milliseconds after
    1970-01-01 00:00; so two time stamps never give the same date-time. *)
Theorem X14_msptime_is_the_instant (ms : Z) (d : datetime.t) :
  _msptime ms = Ok d →
  1 <= datetime.year d <= 9999 ∧ 1 <= datetime.month d <= 12
  ∧ 1 <= datetime.day d <= datetime._days_in_month (datetime.year d) (datetime.month d)
  ∧ 0 <= datetime.hour d < 24 ∧ 0 <= datetime.minute d < 60
  ∧ 0 <= datetime.second d < 60
  ∧ datetime.microsecond d = ms mod 1000 * 1000
  ∧ epoch_milliseconds d = ms.
Proof. intros Hd. by apply _msptime_Ok in Hd as (_ & ?). Qed.

Lemma X14_created_of_the_sample_record :
  1 <= 2022 <= 9999 ∧ 1 <= 12 <= 12
  ∧ 1 <= 26 <= datetime._days_in_month 2022 12
  ∧ 0 <= 4 < 24 ∧ 0 <= 27 < 60 ∧ 0 <= 3 < 60
  ∧ 0 = 1672028823000 mod 1000 * 1000
  ∧ epoch_milliseconds (datetime.mk 2022 12 26 4 27 3 0) = 1672028823000.
Proof.
  exact (X14_msptime_is_the_instant 1672028823000 (datetime.mk 2022 12 26 4 27 3 0)
           ltac:(vm_compute; reflexivity)).
Defined.

(** X15.  A date [_strptime] returns is a day that exists, at midnight. *)
Theorem X15_strptime_is_a_day_at_midnight (s : string) (d : datetime.t) :
  _strptime s = Ok d →
  1 <= datetime.year d <= 9999 ∧ 1 <= datetime.month d <= 12
  ∧ 1 <= datetime.day d <= datetime._days_in_month (datetime.year d) (datetime.month d)
  ∧ datetime.day d <= 31
  ∧ datetime.hour d = 0 ∧ datetime.minute d = 0 ∧ datetime.second d = 0
  ∧ datetime.microsecond d = 0.
Proof.
  unfold _strptime, datetime.strptime_Ymd, datetime.of_date.
  destruct (datetime.re_Ymd _) as [[[[y m] dd] [|c rest]]|]; try discriminate.
  destruct ((1 <=? y) && (y <=? 9999) && (1 <=? m) && (m <=? 12) && (1 <=? dd)
            && (dd <=? datetime._days_in_month y m)) eqn:E; [|discriminate].
  intros [= <-]. simpl.
  repeat (apply andb_prop in E as [E ?]).
  assert (datetime._days_in_month y m <= 31) as Hdim.
  { unfold datetime._days_in_month. destruct ((m =? 2) && datetime._is_leap y); [lia|].
    assert (m = 1 ∨ m = 2 ∨ m = 3 ∨ m = 4 ∨ m = 5 ∨ m = 6 ∨ m = 7 ∨ m = 8 ∨ m = 9
            ∨ m = 10 ∨ m = 11 ∨ m = 12) as Hm by lia.
    destruct Hm as [->|[->|[->|[->|[->|[->|[->|[->|[->|[->|[->| ->]]]]]]]]]]];
      vm_compute; discriminate. }
  lia.
Qed.

Lemma X15_leap_day :
  1 <= 2024 <= 9999 ∧ 1 <= 2 <= 12
  ∧ 1 <= 29 <= datetime._days_in_month 2024 2
  ∧ 29 <= 31 ∧ 0 = 0 ∧ 0 = 0 ∧ 0 = 0 ∧ 0 = 0.
Proof.
  exact (X15_strptime_is_a_day_at_midnight "2024-02-29" (datetime.mk 2024 2 29 0 0 0 0)
           ltac:(vm_compute; reflexivity)).
Defined.

(** X16.  [to_ics] returns exactly when the article number has at most
    4300 digits, the parser takes the body, both date strings parse and
    both time stamps lie between [MS_MIN] and [MS_MAX].  When it raises,
    the exception is the one of the first of these steps that fails, in
    the order in which the arguments are written: a [ValueError] for the
    number, the exception of the parser, a [ValueError] for a date, an
    [OverflowError] for a time stamp. *)
Theorem X16_to_ics_returns_iff `{HTMLParser} (e : SmuCalendarEvent) :
  is_Ok (to_ics e)
  = is_Ok (int_to_str (articleNo e))
    && is_Ok (_cleanhtml (articleText e))
    && is_Ok (_strptime (etcChar6 e)) && is_Ok (_strptime (etcChar7 e))
    && ((MS_MIN <=? createDt e) && (createDt e <=? MS_MAX))
    && ((MS_MIN <=? updateDt e) && (updateDt e <=? MS_MAX))
  ∧ is_Ok (int_to_str (articleNo e))
    = (Z.of_nat (String.length (str (Z.abs (articleNo e)))) <=? INT_MAX_STR_DIGITS)
  ∧ ∀ x, to_ics e = Raise x ↔
      if negb (is_Ok (int_to_str (articleNo e))) then x = ValueError
      else if negb (is_Ok (_cleanhtml (articleText e)))
      then _cleanhtml (articleText e) = Raise x
      else if negb (is_Ok (_strptime (etcChar6 e)) && is_Ok (_strptime (etcChar7 e)))
      then x = ValueError
      else if negb ((MS_MIN <=? createDt e) && (createDt e <=? MS_MAX)
                    && ((MS_MIN <=? updateDt e) && (updateDt e <=? MS_MAX)))
      then x = OverflowError
      else False.
Proof.
  rewrite <- !_msptime_is_Ok. rewrite to_ics_run.
  split; [|split].
  - destruct (int_to_str (articleNo e)); simpl; [|reflexivity].
    destruct (_cleanhtml (articleText e)); simpl; [|reflexivity].
    destruct (_strptime (etcChar6 e)); simpl; [|reflexivity].
    destruct (_strptime (etcChar7 e)); simpl; [|reflexivity].
    destruct (_msptime (createDt e)); simpl; [|reflexivity].
    by destruct (_msptime (updateDt e)).
  - unfold int_to_str. by destruct (_ <=? _).
  - intros x.
    destruct (int_to_str (articleNo e)) as [uid|xn] eqn:En; simpl.
    2: { rewrite (int_to_str_Raise _ _ En). split; congruence. }
    destruct (_cleanhtml (articleText e)) as [text|xt]; simpl; [|split; congruence].
    destruct (_strptime (etcChar6 e)) as [ds|x6] eqn:E6; simpl.
    2: { rewrite (strptime_Ymd_Raise _ _ E6). split; congruence. }
    destruct (_strptime (etcChar7 e)) as [de|x7] eqn:E7; simpl.
    2: { rewrite (strptime_Ymd_Raise _ _ E7). split; congruence. }
    destruct (_msptime (createDt e)) as [c|xc] eqn:Ec; simpl.
    2: { rewrite (_msptime_Raise _ _ Ec). split; congruence. }
    destruct (_msptime (updateDt e)) as [u|xu] eqn:Eu; simpl.
    2: { rewrite (_msptime_Raise _ _ Eu). split; congruence. }
    split; [discriminate | tauto].
Qed.

(** X17.  The event [to_ics] returns carries the title, the cleaned body
    and the link of the record; it begins on the parsed start date; its
    creation and modification times lie [createDt] and [updateDt]
    milliseconds after 1970-01-01 00:00; and it is an all-day event. *)
Theorem X17_to_ics_fields `{HTMLParser} (e : SmuCalendarEvent) (out : ics.Event) :
  to_ics e = Ok out →
  ics.name out = articleTitle e
  ∧ _cleanhtml (articleText e) = Ok (ics.description out)
  ∧ ics.url out = event_url e
  ∧ _strptime (etcChar6 e) = Ok (ics.begin out)
  ∧ epoch_milliseconds (ics.created out) = createDt e
  ∧ epoch_milliseconds (ics.last_modified out) = updateDt e
  ∧ ics.all_day out = true.
Proof.
  rewrite to_ics_run.
  destruct (int_to_str (articleNo e)); simpl; [|discriminate].
  destruct (_cleanhtml (articleText e)); simpl; [|discriminate].
  destruct (_strptime (etcChar6 e)); simpl; [|discriminate].
  destruct (_strptime (etcChar7 e)); simpl; [|discriminate].
  destruct (_msptime (createDt e)) as [c|] eqn:Ec; simpl; [|discriminate].
  destruct (_msptime (updateDt e)) as [u|] eqn:Eu; simpl; [|discriminate].
  intros [= <-]. simpl.
  apply _msptime_Ok in Ec, Eu. repeat split; tauto.
Qed.

Lemma X17_the_enrolment_event :
  ics.name enrolment_event = articleTitle enrolment
  ∧ _cleanhtml (H:=text_parser) (articleText enrolment)
    = Ok (ics.description enrolment_event)
  ∧ ics.url enrolment_event = event_url enrolment
  ∧ _strptime (etcChar6 enrolment) = Ok (ics.begin enrolment_event)
  ∧ epoch_milliseconds (ics.created enrolment_event) = createDt enrolment
  ∧ epoch_milliseconds (ics.last_modified enrolment_event) = updateDt enrolment
  ∧ ics.all_day enrolment_event = true.
Proof.
  exact (X17_to_ics_fields (H:=text_parser) enrolment enrolment_event
           ltac:(vm_compute; reflexivity)).
Defined.

(** X18.  Two converted events have the same [uid] exactly when their
    records have the same article number. *)
Theorem X18_uid_is_the_article_number `{HTMLParser} (e1 e2 : SmuCalendarEvent)
    (out1 out2 : ics.Event) :
  to_ics e1 = Ok out1 → to_ics e2 = Ok out2 →
  (ics.uid out1 = ics.uid out2 ↔ articleNo e1 = articleNo e2).
Proof.
  intros H1 H2. apply to_ics_Ok in H1 as [-> _]. apply to_ics_Ok in H2 as [-> _].
  unfold str. split; [apply pretty_Z_inj | by intros ->].
Qed.

Lemma X18_two_articles_two_uids :
  ics.uid enrolment_event = ics.uid examinations_event
  ↔ articleNo enrolment = articleNo examinations.
Proof.
  exact (X18_uid_is_the_article_number (H:=text_parser) enrolment examinations
           enrolment_event examinations_event
           ltac:(vm_compute; reflexivity) ltac:(vm_compute; reflexivity)).
Defined.

(** ** The text of the body, further *)

Lemma from_last_None (c : ascii) (l : list ascii) :
  existsb (is_char c) l = false → from_last c l = None.
Proof.
  induction l as [|x l IH]; simpl; [reflexivity|].
  intros H. apply orb_false_elim in H as [Hx Hl]. by rewrite (IH Hl), Hx.
Qed.

Lemma from_last_app (c : ascii) (l1 l2 : list ascii) :
  existsb (is_char c) l2 = false →
  from_last c (l1 ++ c :: l2) = Some (c :: l2).
Proof.
  intros H. induction l1 as [|x l1 IH]; simpl.
  - rewrite (from_last_None _ _ H). unfold is_char. by rewrite bool_decide_eq_true_2.
  - by rewrite IH.
Qed.

Lemma existsb_drop {A} (p : A → bool) (n : nat) (l : list A) :
  existsb p l = false → existsb p (drop n l) = false.
Proof.
  revert n. induction l as [|x l IH]; intros [|n]; simpl; try done.
  intros H. apply orb_false_elim in H as [_ Hl]. by apply IH.
Qed.

Lemma plain_text_goahead (s : string) :
  plain_text s = true →
  goahead_text s = Some (match s with "" => [] | _ => [s] end).
Proof.
  unfold plain_text, goahead_text. intros Hp.
  set (l := String.list_ascii_of_string s) in *.
  assert (existsb (is_char "<"%char) l = false) as H1.
  { apply not_true_is_false. intros Hex. apply existsb_exists in Hex as (c & Hin & Hc).
    rewrite forallb_forall in Hp. specialize (Hp c Hin). unfold is_text in Hp.
    rewrite Hc in Hp. discriminate. }
  assert (existsb (λ c, 128 <=? code c) l = false) as H2.
  { apply not_true_is_false. intros Hex. apply existsb_exists in Hex as (c & Hin & Hc).
    rewrite forallb_forall in Hp. specialize (Hp c Hin). unfold is_text in Hp.
    apply Z.leb_le in Hc. apply andb_prop in Hp as [Hp _].
    apply andb_prop in Hp as [_ Hp]. apply Z.ltb_lt in Hp. lia. }
  assert (existsb (is_char "&"%char) l = false) as H3.
  { apply not_true_is_false. intros Hex. apply existsb_exists in Hex as (c & Hin & Hc).
    rewrite forallb_forall in Hp. specialize (Hp c Hin).
    rewrite Hc in Hp. by rewrite andb_false_r in Hp. }
  rewrite H1, H2. simpl.
  rewrite (from_last_None _ _ (existsb_drop _ _ _ H3)), H3.
  subst l. by destruct s.
Qed.

(** X19.  A body of ASCII text without ['<'] and without ['&'] comes back
    from [_cleanhtml] as it is; the empty body in particular. *)
Theorem X19_plain_text_comes_back `{HTMLParser} (s : string) :
  plain_text s = true → _cleanhtml s = Ok s.
Proof.
  intros Hp. unfold _cleanhtml. rewrite (feed_text s _ (plain_text_goahead s Hp)).
  by destruct s.
Qed.

Lemma X19_the_enrolment_body :
  _cleanhtml (H:=text_parser) "Enrolment opens" = Ok "Enrolment opens".
Proof.
  exact (X19_plain_text_comes_back (H:=text_parser) "Enrolment opens" eq_refl).
Defined.

(** X20.  A body of ASCII text without ['<'] that ends in an ['&'] followed
    by fewer than 34 characters, none of them white space, [';'] or ['&'],
    is lost as a whole: the parser holds it back, [_cleanhtml] does not
    close the parser, and the result is empty. *)
Theorem X20_text_ending_in_a_reference_is_lost `{HTMLParser} (before after : string) :
  forallb is_text (String.list_ascii_of_string before) = true →
  forallb (λ c, is_text c && negb (is_char "&"%char c) && negb (ends_reference c))
          (String.list_ascii_of_string after) = true →
  (String.length after < 34)%nat →
  _cleanhtml (before +:+ "&" +:+ after) = Ok "".
Proof.
  intros Hb Ha Hlen.
  assert (goahead_text (before +:+ "&" +:+ after) = Some []) as Hgo.
  { unfold goahead_text. rewrite !list_ascii_of_string_app. simpl.
    set (lb := String.list_ascii_of_string before) in *.
    set (la := String.list_ascii_of_string after) in *.
    assert (length la = String.length after) as Hla.
    { subst la. clear. induction after; simpl; congruence. }
    rewrite forallb_forall in Hb. rewrite forallb_forall in Ha.
    assert (existsb (is_char "<"%char) (lb ++ "&"%char :: la) = false) as ->.
    { apply not_true_is_false. intros Hex.
      apply existsb_exists in Hex as (c & Hin & Hc).
      apply in_app_or in Hin as [Hin|[<-|Hin]].
      - specialize (Hb c Hin). unfold is_text in Hb. by rewrite Hc in Hb.
      - vm_compute in Hc. discriminate.
      - specialize (Ha c Hin). unfold is_text in Ha. by rewrite Hc in Ha. }
    assert (existsb (λ c, 128 <=? code c) (lb ++ "&"%char :: la) = false) as ->.
    { apply not_true_is_false. intros Hex.
      apply existsb_exists in Hex as (c & Hin & Hc).
      apply Z.leb_le in Hc.
      apply in_app_or in Hin as [Hin|[<-|Hin]].
      - specialize (Hb c Hin). unfold is_text in Hb.
        apply andb_prop in Hb as [_ Hb]. apply Z.ltb_lt in Hb. lia.
      - vm_compute in Hc. by apply Hc.
      - specialize (Ha c Hin). unfold is_text in Ha.
        apply andb_prop in Ha as [Ha _]. apply andb_prop in Ha as [Ha _].
        apply andb_prop in Ha as [_ Ha]. apply Z.ltb_lt in Ha. lia. }
    simpl. destruct (lb ++ "&"%char :: la) as [|c0 l0] eqn:El.
    { by destruct lb. }
    rewrite <- El. clear El c0 l0.
    assert (existsb (is_char "&"%char) la = false) as Hnoamp.
    { apply not_true_is_false. intros Hex.
      apply existsb_exists in Hex as (c & Hin & Hc).
      specialize (Ha c Hin). rewrite Hc in Ha. simpl in Ha.
      by rewrite andb_false_r in Ha. }
    assert (existsb (λ c, is_space c || is_char ";"%char c) ("&"%char :: la) = false)
      as Hnoend.
    { apply not_true_is_false. intros Hex.
      apply existsb_exists in Hex as (c & Hin & Hc).
      destruct Hin as [<-|Hin]; [vm_compute in Hc; discriminate|].
      specialize (Ha c Hin). unfold ends_reference in Ha. rewrite Hc in Ha.
      by rewrite andb_false_r in Ha. }
    rewrite length_app. simpl length.
    rewrite drop_app_le by lia.
    rewrite (from_last_app _ _ _ Hnoamp), Hnoend. reflexivity. }
  unfold _cleanhtml. by rewrite (feed_text _ _ Hgo).
Qed.

Lemma X20_research_and_development :
  _cleanhtml (H:=text_parser) ("Office of R" +:+ "&" +:+ "D") = Ok "".
Proof.
  exact (X20_text_ending_in_a_reference_is_lost (H:=text_parser) "Office of R" "D"
           eq_refl eq_refl ltac:(simpl; lia)).
Defined.

(** ** The calls on the calendar *)

Lemma strict_NoDup (l : list SmuCalendarEvent) :
  StronglySorted (λ a b, articleNo a < articleNo b) l → NoDup (articleNo <$> l).
Proof.
  induction 1 as [|x l Hl IH Hx]; simpl; [constructor|].
  apply NoDup_cons. split; [|exact IH].
  intros Hin. apply list_elem_of_fmap in Hin as (y & Hxy & Hy).
  rewrite Forall_forall in Hx. specialize (Hx y Hy). lia.
Qed.

(** X21.  When [main] returns, it has converted each aggregated event once
    and called [icalendar.events.add] with the results one after the other,
    in ascending order of article number: never a number after a greater
    one, and strictly ascending exactly when no two aggregated events share
    an article number.  The calendar whose document is written is the one
    these calls were made on.  (What the package makes of the calls, and
    so the order of the events in the document, is not part of the
    program.) *)
Theorem X21_add_calls_in_ascending_order `{HTMLParser} (w : World) (st st' : State) :
  main w st = (Ok (), st') →
  let converted := sorted __lt__ (iter_events w (aggregated w)) in
  ∃ outs,
    files st' !! ICS_FILE_OUTPUT_PATH
    = Some (Document (ics.mkCalendar ICS_AUTHOR outs))
    ∧ Forall2 (λ e out, to_ics e = Ok out ∧ ics.uid out = str (articleNo e))
              converted outs
    ∧ converted ≡ₚ aggregated w
    ∧ StronglySorted by_articleNo converted
    ∧ (NoDup (articleNo <$> aggregated w)
       ↔ StronglySorted (λ a b, articleNo a < articleNo b) converted).
Proof.
  intros Hmain converted. subst converted.
  rewrite main_with_log in Hmain. cbv zeta in Hmain.
  destruct (mapR to_ics (sorted __lt__ (iter_events w (aggregated w))))
    as [outs|x] eqn:Hmap; [|discriminate Hmain].
  exists outs. split.
  { destruct (if os_path_exists w ICS_FILE_OUTPUT_DIR then _ else _);
      [|discriminate Hmain].
    destruct (open_write w ICS_FILE_OUTPUT_PATH); [|discriminate Hmain].
    destruct (writelines w ICS_FILE_OUTPUT_PATH); [|discriminate Hmain].
    injection Hmain as <-. simpl. apply lookup_insert_eq. }
  split.
  { apply mapR_Ok in Hmap. eapply Forall2_impl; [exact Hmap|].
    intros e out He. split; [exact He|]. by apply to_ics_Ok in He as [? _]. }
  split; [apply converted_Permutation|].
  split; [apply sorted_StronglySorted|].
  split.
  - intros Hnd. apply StronglySorted_strict; [apply sorted_StronglySorted|].
    by rewrite converted_Permutation.
  - intros Hstrict. apply strict_NoDup in Hstrict.
    by rewrite converted_Permutation in Hstrict.
Qed.

Lemma X21_three_articles_and_one_twice :
  (∃ outs,
     files (main (H:=text_parser) world_regular initial).2 !! ICS_FILE_OUTPUT_PATH
     = Some (Document (ics.mkCalendar ICS_AUTHOR outs))
     ∧ ics.uid <$> outs = ["7"; "42"; "100"])
  ∧ (∃ outs,
       files (main (H:=text_parser) world_retitled initial).2 !! ICS_FILE_OUTPUT_PATH
       = Some (Document (ics.mkCalendar ICS_AUTHOR outs))
       ∧ ics.uid <$> outs = ["42"; "42"]).
Proof.
  split.
  - destruct (X21_add_calls_in_ascending_order (H:=text_parser) world_regular initial
                (main (H:=text_parser) world_regular initial).2
                ltac:(vm_compute; reflexivity))
      as (outs & Hfile & _).
    exists outs. split; [exact Hfile|].
    vm_compute in Hfile. by injection Hfile as <-.
  - destruct (X21_add_calls_in_ascending_order (H:=text_parser) world_retitled initial
                (main (H:=text_parser) world_retitled initial).2
                ltac:(vm_compute; reflexivity))
      as (outs & Hfile & _).
    exists outs. split; [exact Hfile|].
    vm_compute in Hfile. by injection Hfile as <-.
Defined.

(** ** A body the parser refuses *)

(** X22.  A body whose first ['<'] opens a marked section with no name or
    with an unknown name ([goahead_marked_section]) makes the parser raise,
    and [to_ics] with it: the event is not converted, whatever its dates
    and time stamps, and the exception is an [AssertionError] when the
    article number can be written out. *)
Theorem X22_marked_section_ends_the_conversion `{HTMLParser} (e : SmuCalendarEvent) :
  goahead_marked_section (articleText e) = true →
  _cleanhtml (articleText e) = Raise AssertionError
  ∧ is_Ok (to_ics e) = false
  ∧ (is_Ok (int_to_str (articleNo e)) = true → to_ics e = Raise AssertionError).
Proof.
  intros Hm.
  assert (_cleanhtml (articleText e) = Raise AssertionError) as Hclean.
  { unfold _cleanhtml. by rewrite (feed_marked_section _ Hm). }
  split; [exact Hclean|]. rewrite to_ics_run, Hclean.
  destruct (int_to_str (articleNo e)); simpl; [|by split].
  by split.
Qed.

Lemma X22_the_garbled_body :
  _cleanhtml (H:=text_parser) "<![x]>" = Raise AssertionError
  ∧ to_ics (H:=text_parser) garbled = Raise AssertionError.
Proof.
  destruct (X22_marked_section_ends_the_conversion (H:=text_parser) garbled
              ltac:(vm_compute; reflexivity)) as (Hclean & _ & Hto).
  split; [exact Hclean|]. apply Hto. vm_compute. reflexivity.
Defined.
